(** * COVID Tracker: the aggregation pipeline of [app.py]

    A shallow embedding of the data transformations of the dashboard
    (lines 35-37, 68, 85, 104, 127-130 and 158-166 of [src/app.py]) and
    the properties its specification states about them.

    Modelling conventions.
    - A data frame is the list of its rows, in row order.
    - [dateRep] is a timestamp parsed from [%d/%m/%Y], hence at
      midnight; it is kept as its calendar fields.
    - The two [st.date_input] of the form return [datetime.date]
      values; pandas orders a datetime64 column against a timestamp and
      raises [TypeError] against a [datetime.date], and exceptions are
      results of the functions that can raise.
    - Country names and dates are present on every row; a
      [countryterritoryCode] may be missing ([NaN]), which is [None].
    - [cases] and [deaths] are integers, summed in [Z] (the sums of
      such a dataset stay far inside the 64-bit range of the column);
      the float64 result of [Series.mean] is kept as an exact rational,
      and the [NaN] that [mean] gives on an empty selection is [None].
    - [groupby] uses pandas' defaults: one group per distinct key, the
      groups in ascending key order.
    - [sort_values] is modelled by a stable insertion sort; pandas'
      default (quicksort) may order rows with equal keys differently,
      and no statement below depends on the order of such ties. *)

From Stdlib Require Import List ZArith QArith Bool Lia String Ascii.
From Stdlib Require Import Permutation Sorted.
Import ListNotations.

Local Open Scope Z_scope.

(** * Part I: the program *)

(** ** Keys: the values pandas groups and sorts by *)

Class Key (K : Type) := {
  keqb : K -> K -> bool;
  kleb : K -> K -> bool
}.

(** Strings, ordered as Python orders [str]. *)
#[export] Instance string_Key : Key string := {
  keqb := String.eqb;
  kleb := String.leb
}.

(** *** Timestamps at midnight, as calendar dates *)

Record Timestamp := mkDate { year : nat; month : nat; day : nat }.

Definition date_eqb (a b : Timestamp) : bool :=
  Nat.eqb (year a) (year b) && Nat.eqb (month a) (month b) && Nat.eqb (day a) (day b).

Definition date_leb (a b : Timestamp) : bool :=
  Nat.ltb (year a) (year b)
  || (Nat.eqb (year a) (year b)
      && (Nat.ltb (month a) (month b)
          || (Nat.eqb (month a) (month b) && Nat.leb (day a) (day b)))).


#[export] Instance date_Key : Key Timestamp := {
  keqb := date_eqb;
  kleb := date_leb
}.

(** ** The loaded dataset *)

(** One row of [data], by its CSV column names. *)
Record Row := mkRow {
  dateRep : Timestamp;
  countriesAndTerritories : string;
  countryterritoryCode : option string;
  cases : Z;
  deaths : Z
}.

Definition DataFrame := list Row.

(** ** Column operations *)

(** [Series.sum] of an integer column. *)
Fixpoint sumZ (l : list Z) : Z :=
  match l with
  | [] => 0
  | x :: t => x + sumZ t
  end.

(** [Series.mean]: [NaN] on an empty selection, else sum over count. *)
Definition mean (l : list Z) : option Q :=
  match l with
  | [] => None
  | _ :: _ => Some (sumZ l # Pos.of_nat (List.length l))
  end.

(** [drop_duplicates] (keep = 'first'): the first occurrence of each
    value stays, in its place. *)
Fixpoint drop_duplicates {A} (eqb : A -> A -> bool) (l : list A) : list A :=
  match l with
  | [] => []
  | x :: t => x :: filter (fun y => negb (eqb x y)) (drop_duplicates eqb t)
  end.

(** Stable insertion sort by a boolean order. *)
Fixpoint insert {A} (leb : A -> A -> bool) (x : A) (l : list A) : list A :=
  match l with
  | [] => [x]
  | y :: t => if leb x y then x :: y :: t else y :: insert leb x t
  end.

Definition isort {A} (leb : A -> A -> bool) (l : list A) : list A :=
  fold_right (insert leb) [] l.

(** The group keys of [groupby]: the distinct values, ascending. *)
Definition group_keys {K} `{Key K} (l : list K) : list K :=
  isort kleb (drop_duplicates keqb l).

(** [df.groupby(by)]: each key with the rows of its group, in row order. *)
Definition groupby {K} `{Key K} {R} (by_ : R -> K) (rows : list R)
  : list (K * list R) :=
  map (fun k => (k, filter (fun r => keqb (by_ r) k) rows))
      (group_keys (map by_ rows)).

(** [sort_values(by=col)] ascending, and with [ascending=False]. *)
Definition sort_values {K} `{Key K} {R} (by_ : R -> K) (rows : list R) : list R :=
  isort (fun a b => kleb (by_ a) (by_ b)) rows.

Definition sort_values_desc {R} (by_ : R -> Z) (rows : list R) : list R :=
  isort (fun a b => Z.leb (by_ b) (by_ a)) rows.

(** ** The derived tables of [app.py] *)

(** Rows of [data.groupby("countriesAndTerritories", as_index=False)["cases"].sum()]. *)
Record CountryCases := mkCountryCases {
  cc_country : string;      (* countriesAndTerritories *)
  cc_cases : Z              (* cases *)
}.

(** Rows of [total_cases_by_country] after the merge with [iso_mapping]. *)
Record CountryTotal := mkCountryTotal {
  ct_country : string;      (* countriesAndTerritories *)
  ct_cases : Z;             (* cases *)
  ct_code : option string   (* countryterritoryCode *)
}.

(** Rows of [daily_cases]. *)
Record DailyTotal := mkDailyTotal {
  dt_date : Timestamp;      (* dateRep *)
  dt_cases : Z              (* cases *)
}.

(** Rows of [cases_deaths]. *)
Record CountryCasesDeaths := mkCountryCasesDeaths {
  cd_country : string;      (* countriesAndTerritories *)
  cd_cases : Z;             (* cases *)
  cd_deaths : Z             (* deaths *)
}.

(** Line 35: per-country sum of [cases]. *)
Definition groupby_country_cases (data : DataFrame) : list CountryCases :=
  map (fun g => mkCountryCases (fst g) (sumZ (map cases (snd g))))
      (groupby countriesAndTerritories data).

(** Equality of (name, code) rows as [drop_duplicates] sees it: two
    missing codes are duplicates of each other. *)
Definition code_eqb (a b : option string) : bool :=
  match a, b with
  | None, None => true
  | Some x, Some y => String.eqb x y
  | _, _ => false
  end.

Definition pair_eqb (a b : string * option string) : bool :=
  String.eqb (fst a) (fst b) && code_eqb (snd a) (snd b).

(** Line 36: the distinct (name, code) rows, first-seen order. *)
Definition iso_mapping (data : DataFrame) : list (string * option string) :=
  drop_duplicates pair_eqb
    (map (fun r => (countriesAndTerritories r, countryterritoryCode r)) data).

(** [left.merge(right, on="countriesAndTerritories", how="left")]: each
    left row once per matching right row, in the right table's order;
    a left row without a match is kept with a missing code. *)
Definition merge_left (left : list CountryCases)
    (right : list (string * option string)) : list CountryTotal :=
  flat_map
    (fun g =>
       match filter (fun p => String.eqb (fst p) (cc_country g)) right with
       | [] => [mkCountryTotal (cc_country g) (cc_cases g) None]
       | ms => map (fun p => mkCountryTotal (cc_country g) (cc_cases g) (snd p)) ms
       end)
    left.

(** Line 37: the Totals-by-country table fed to the map. *)
Definition total_cases_by_country (data : DataFrame) : list CountryTotal :=
  merge_left (groupby_country_cases data) (iso_mapping data).

(** Line 68: per-date sum of [cases]; [reset_index] makes the date a column. *)
Definition daily_cases (data : DataFrame) : list DailyTotal :=
  map (fun g => mkDailyTotal (fst g) (sumZ (map cases (snd g))))
      (groupby dateRep data).

(** Line 85: per-country sums of [cases] and [deaths]. *)
Definition cases_deaths (data : DataFrame) : list CountryCasesDeaths :=
  map (fun g => mkCountryCasesDeaths (fst g)
                  (sumZ (map cases (snd g))) (sumZ (map deaths (snd g))))
      (groupby countriesAndTerritories data).

(** Line 104: [sort_values(by="cases", ascending=False).head(10)]. *)
Definition top_countries (data : DataFrame) : list CountryTotal :=
  firstn 10 (sort_values_desc ct_cases (total_cases_by_country data)).

(** ** The monthly view (lines 128-130) *)

Definition digit (n : nat) : ascii := ascii_of_nat (48 + Nat.modulo n 10).

(** [dt.to_period("M").astype(str)]: the label [YYYY-MM]. *)
Definition year_month_str (d : Timestamp) : string :=
  String (digit (Nat.div (year d) 1000))
  (String (digit (Nat.div (year d) 100))
  (String (digit (Nat.div (year d) 10))
  (String (digit (year d))
  (String "-"%char
  (String (digit (Nat.div (month d) 10))
  (String (digit (month d)) EmptyString)))))).

(** A row of [country_cases]: a row of [data] and its [year_month]. *)
Record MonthRow := mkMonthRow {
  mr_row : Row;
  year_month : string
}.

Definition mr_date (m : MonthRow) : Timestamp := dateRep (mr_row m).

Definition select_country (data : DataFrame) (country : string) : DataFrame :=
  filter (fun r => String.eqb (countriesAndTerritories r) country) data.

Definition add_year_month (rows : DataFrame) : list MonthRow :=
  map (fun r => mkMonthRow r (year_month_str (dateRep r))) rows.

Definition country_cases (data : DataFrame) (country : string) : list MonthRow :=
  sort_values mr_date (add_year_month (select_country data country)).

(** ** The range query (lines 151-166) *)

(** [pd.to_datetime] applied to a column that already holds timestamps. *)
Definition to_datetime (d : Timestamp) : Timestamp := d.

Definition reparse_dateRep (rows : DataFrame) : DataFrame :=
  map (fun r => mkRow (to_datetime (dateRep r)) (countriesAndTerritories r)
                      (countryterritoryCode r) (cases r) (deaths r)) rows.

(** Lines 158-159. *)
Definition avg_period_country_cases (data : DataFrame) (country : string) : DataFrame :=
  reparse_dateRep (select_country data country).

(** A [datetime.date]. *)
Record Date := mkDay { d_year : nat; d_month : nat; d_day : nat }.

(** The Python values that the [dateRep] column can be compared with. *)
Inductive Scalar :=
| PyDate (d : Date)                (* datetime.date *)
| PyTimestamp (t : Timestamp).     (* pd.Timestamp *)

(** Lines 153-154: [st.date_input] returns the chosen day as a
    [datetime.date]. *)
Definition date_input (chosen : Date) : Scalar := PyDate chosen.

Inductive Exception :=
| TypeError (message : string).

Inductive Result (A : Type) :=
| Returned (a : A)
| Raised (e : Exception).

Arguments Returned {A} a.
Arguments Raised {A} e.

Definition invalid_comparison : Exception :=
  TypeError "Invalid comparison between dtype=datetime64[ns] and date".

(** [column >= other] on a datetime64 column: element by element against
    a timestamp; refused against a [datetime.date]. *)
Definition column_ge (column : list Timestamp) (other : Scalar)
  : Result (list bool) :=
  match other with
  | PyTimestamp t => Returned (map (fun x => date_leb t x) column)
  | PyDate _ => Raised invalid_comparison
  end.

(** [column <= other], likewise. *)
Definition column_le (column : list Timestamp) (other : Scalar)
  : Result (list bool) :=
  match other with
  | PyTimestamp t => Returned (map (fun x => date_leb x t) column)
  | PyDate _ => Raised invalid_comparison
  end.

(** [a & b] on two boolean columns of one frame. *)
Definition column_and (a b : list bool) : list bool :=
  map (fun p => fst p && snd p) (combine a b).

(** Line 160: the left comparison is evaluated first. *)
Definition mask (frame : DataFrame) (start_period end_period : Scalar)
  : Result (list bool) :=
  match column_ge (map dateRep frame) start_period with
  | Raised e => Raised e
  | Returned from_start =>
      match column_le (map dateRep frame) end_period with
      | Raised e => Raised e
      | Returned to_end => Returned (column_and from_start to_end)
      end
  end.

(** [frame.loc[mask, "cases"]]. *)
Definition loc_cases (frame : DataFrame) (selected : list bool) : list Z :=
  map (fun p => cases (fst p)) (filter snd (combine frame selected)).

(** Lines 160-161 on a frame. *)
Definition masked_mean (frame : DataFrame) (start_period end_period : Scalar)
  : Result (option Q) :=
  match mask frame start_period end_period with
  | Raised e => Raised e
  | Returned selected => Returned (mean (loc_cases frame selected))
  end.

(** Lines 158-161. *)
Definition avg_cases (data : DataFrame) (country : string)
    (start_period end_period : Scalar) : Result (option Q) :=
  masked_mean (avg_period_country_cases data country) start_period end_period.

Definition isnan (x : option Q) : bool :=
  match x with None => true | Some _ => false end.

(** [np.round(x, decimals)] on the float64 mean: the call is recorded,
    its value is not computed. *)
Inductive Rounded :=
| np_round (x : Q) (decimals : Z).

(** What the form shows once submitted. *)
Inductive Shown :=
| st_warning (body : string)
| st_metric (label : string) (value : Rounded).

(** Line 164. *)
Definition no_data : Shown := st_warning "No data available for the selected period.".

(** Line 166. *)
Definition metric (q : Q) : Shown :=
  st_metric "Average COVID Cases in Selected Period" (np_round q 2).

(** Lines 163-166. *)
Definition show (avg : option Q) : Shown :=
  if isnan avg then no_data
  else match avg with
       | Some q => metric q
       | None => no_data
       end.

(** Lines 160-166 on a frame. *)
Definition submitted (frame : DataFrame) (start_period end_period : Scalar)
  : Result Shown :=
  match masked_mean frame start_period end_period with
  | Raised e => Raised e
  | Returned avg => Returned (show avg)
  end.

(** Lines 158-166: the body of [if submit:]. *)
Definition range_query (data : DataFrame) (country : string)
    (start_period end_period : Scalar) : Result Shown :=
  submitted (avg_period_country_cases data country) start_period end_period.

(** * Frames as objects: which statement writes to which frame

  The tables above are values. To tell a statement that builds a new
  frame ([data[...]], [.copy()], [sort_values], [groupby]) from one that
  writes into an existing frame ([frame["col"] = ...]), frames live in
  a store and variables hold references to them. *)

Module Store.

Inductive Frame :=
| Plain (rows : list Row)                (* the columns of the CSV *)
| WithMonth (rows : list MonthRow).      (* and a [year_month] column *)

Definition Ref := nat.
Definition Heap := list Frame.

Definition M (A : Type) : Type := Heap -> A * Heap.

Definition ret {A} (a : A) : M A := fun h => (a, h).

Definition bind {A B} (m : M A) (k : A -> M B) : M B :=
  fun h => let (a, h') := m h in k a h'.

Declare Scope store_scope.
Delimit Scope store_scope with store.
Notation "x <- m ;; k" := (bind m (fun x => k))
  (at level 61, m at next level, right associativity) : store_scope.
Notation "m ;; k" := (bind m (fun _ => k))
  (at level 61, right associativity) : store_scope.
Local Open Scope store_scope.

Fixpoint update {A} (i : nat) (x : A) (l : list A) : list A :=
  match l, i with
  | [], _ => []
  | _ :: t, O => x :: t
  | y :: t, S j => y :: update j x t
  end.

(** A new object, after all existing ones. *)
Definition alloc (f : Frame) : M Ref := fun h => (List.length h, h ++ [f]).

Definition get (r : Ref) : M Frame := fun h => (nth r h (Plain []), h).

(** Writing into an existing object. *)
Definition put (r : Ref) (f : Frame) : M unit := fun h => (tt, update r f h).

Definition rows_of (f : Frame) : list Row :=
  match f with
  | Plain rows => rows
  | WithMonth rows => map mr_row rows
  end.

(** [frame[frame[col] == v]]: a new frame with the selected rows. *)
Definition getitem_bool (r : Ref) (p : Row -> bool) : M Ref :=
  f <- get r ;;
  alloc match f with
        | Plain rows => Plain (filter p rows)
        | WithMonth rows => WithMonth (filter (fun m => p (mr_row m)) rows)
        end.

(** [frame.copy()]. *)
Definition copy (r : Ref) : M Ref := f <- get r ;; alloc f.

(** [frame["year_month"] = frame["dateRep"].dt.to_period("M").astype(str)],
    in place. *)
Definition setitem_year_month (r : Ref) : M unit :=
  f <- get r ;; put r (WithMonth (add_year_month (rows_of f))).

(** [frame["dateRep"] = pd.to_datetime(frame["dateRep"], ...)], in place. *)
Definition setitem_dateRep (r : Ref) : M unit :=
  f <- get r ;;
  put r match f with
        | Plain rows => Plain (reparse_dateRep rows)
        | WithMonth rows =>
            WithMonth (map (fun m => mkMonthRow
                              (mkRow (to_datetime (mr_date m))
                                     (countriesAndTerritories (mr_row m))
                                     (countryterritoryCode (mr_row m))
                                     (cases (mr_row m)) (deaths (mr_row m)))
                              (year_month m)) rows)
        end.

(** [frame.sort_values(by="dateRep")]: a new frame. *)
Definition sort_values_dateRep (r : Ref) : M Ref :=
  f <- get r ;;
  alloc match f with
        | Plain rows => Plain (sort_values dateRep rows)
        | WithMonth rows => WithMonth (sort_values mr_date rows)
        end.

(** The cached dataset is the first object of the store. *)
Definition data : Ref := 0%nat.

Definition initial (loaded : DataFrame) : Heap := [Plain loaded].

(** The parts of the page that compute on [data]. *)
Inductive View :=
| TotalsMap
| DailyLine
| CasesDeathsScatter
| Top10Bar
| MonthlyHistogram (country : string)
| RangeForm (country : string) (start_period end_period : Date).

Inductive Output :=
| OutTotals (t : list CountryTotal)
| OutDaily (t : list DailyTotal)
| OutCasesDeaths (t : list CountryCasesDeaths)
| OutTop (t : list CountryTotal)
| OutMonthly (f : Frame)
| OutRange (s : Result Shown).

(** Lines 128-130. *)
Definition monthly_histogram (country : string) : M Output :=
  selected <- getitem_bool data
                (fun r => String.eqb (countriesAndTerritories r) country) ;;
  country_cases <- copy selected ;;
  setitem_year_month country_cases ;;
  country_cases <- sort_values_dateRep country_cases ;;
  f <- get country_cases ;;
  ret (OutMonthly f).

(** Lines 153-166, once the form is submitted. *)
Definition range_form (country : string) (start_period end_period : Date)
  : M Output :=
  selected <- getitem_bool data
                (fun r => String.eqb (countriesAndTerritories r) country) ;;
  avg_period_country_cases <- copy selected ;;
  setitem_dateRep avg_period_country_cases ;;
  f <- get avg_period_country_cases ;;
  ret (OutRange (submitted (rows_of f)
                   (date_input start_period) (date_input end_period))).

Definition run (v : View) : M Output :=
  match v with
  | TotalsMap => f <- get data ;; ret (OutTotals (total_cases_by_country (rows_of f)))
  | DailyLine => f <- get data ;; ret (OutDaily (daily_cases (rows_of f)))
  | CasesDeathsScatter => f <- get data ;; ret (OutCasesDeaths (cases_deaths (rows_of f)))
  | Top10Bar => f <- get data ;; ret (OutTop (top_countries (rows_of f)))
  | MonthlyHistogram country => monthly_histogram country
  | RangeForm country s e => range_form country s e
  end.

Fixpoint run_all (vs : list View) : M (list Output) :=
  match vs with
  | [] => ret []
  | v :: vs => o <- run v ;; os <- run_all vs ;; ret (o :: os)
  end.

(** What each view computes, as a value of the tables above. *)
Definition expected (loaded : DataFrame) (v : View) : Output :=
  match v with
  | TotalsMap => OutTotals (total_cases_by_country loaded)
  | DailyLine => OutDaily (daily_cases loaded)
  | CasesDeathsScatter => OutCasesDeaths (cases_deaths loaded)
  | Top10Bar => OutTop (top_countries loaded)
  | MonthlyHistogram country => OutMonthly (WithMonth (country_cases loaded country))
  | RangeForm country s e =>
      OutRange (range_query loaded country (date_input s) (date_input e))
  end.

End Store.

(** ** The country selectors (lines 127 and 152) *)

(** [data["countriesAndTerritories"].sort_values().unique()]: the
    options offered by both [st.selectbox]. *)
Definition country_options (data : DataFrame) : list string :=
  drop_duplicates String.eqb
    (sort_values (fun c : string => c) (map countriesAndTerritories data)).

(** ** Notions used in the statements *)

(** The invariant of the data model: a country name carries one code
    value (possibly the missing one) on all its rows. *)
Definition codes_consistentb (data : DataFrame) : bool :=
  forallb (fun r1 =>
    forallb (fun r2 =>
      implb (String.eqb (countriesAndTerritories r1) (countriesAndTerritories r2))
            (code_eqb (countryterritoryCode r1) (countryterritoryCode r2)))
      data) data.

(** The distinct code values on the rows of one country, first seen first. *)
Definition codes_of (data : DataFrame) (country : string) : list (option string) :=
  drop_duplicates code_eqb (map countryterritoryCode (select_country data country)).

(** Number of distinct country names in the dataset. *)
Definition distinct_countries (data : DataFrame) : nat :=
  List.length (drop_duplicates String.eqb (map countriesAndTerritories data)).

Definition three_paths_agree (data : DataFrame) : Prop :=
  sumZ (map ct_cases (total_cases_by_country data))
  = sumZ (map dt_cases (daily_cases data))
  /\ sumZ (map dt_cases (daily_cases data)) = sumZ (map cases data).

Definition non_increasing (a b : CountryTotal) : Prop := ct_cases b <= ct_cases a.

(** The rows of the merged totals table for one country. *)
Definition rows_of_country (data : DataFrame) (country : string) : list CountryTotal :=
  filter (fun t => String.eqb (ct_country t) country) (total_cases_by_country data).

Definition date_of_row_is (d : Timestamp) (r : Row) : bool := date_eqb (dateRep r) d.

Definition chronological (a b : MonthRow) : Prop :=
  date_leb (mr_date a) (mr_date b) = true.

(** Strictly ascending keys. *)
Definition ascending {K} `{Key K} (a b : K) : Prop := kleb a b = true /\ a <> b.

(** A calendar date as a four-digit-year timestamp holds it. *)
Definition calendar_date (d : Timestamp) : bool :=
  Nat.ltb (year d) (100 * 100) && Nat.leb 1 (month d) && Nat.leb (month d) 12.

(** ** Datasets used as examples *)

(** The scenario of the specification. *)
Module Scenario.
Definition d1 := mkDate 2020 1 1.
Definition d2 := mkDate 2020 1 2.
Definition data : DataFrame :=
  [ mkRow d1 "A" (Some "AAA"%string) 10 0;
    mkRow d2 "A" (Some "AAA"%string) 20 0;
    mkRow d1 "B" (Some "BBB"%string) 5 0 ].
End Scenario.

(** One country reported under two codes. *)
Module TwoCodes.
Definition data : DataFrame :=
  [ mkRow (mkDate 2020 1 1) "A" (Some "AAA"%string) 1 0;
    mkRow (mkDate 2020 1 2) "A" (Some "AAB"%string) 2 0 ].
End TwoCodes.

(** A country whose code is missing on all its rows, next to a coded one. *)
Module MissingCode.
Definition data : DataFrame :=
  [ mkRow (mkDate 2020 1 1) "A" (Some "AAA"%string) 4 1;
    mkRow (mkDate 2020 1 1) "B" None 3 0;
    mkRow (mkDate 2020 1 2) "B" None 5 2 ].
End MissingCode.

(** Two rows of one month, the later day first in the file. *)
Module SameMonth.
Definition data : DataFrame :=
  [ mkRow (mkDate 2020 1 15) "A" (Some "AAA"%string) 7 0;
    mkRow (mkDate 2020 1 3) "A" (Some "AAA"%string) 2 0;
    mkRow (mkDate 2019 12 30) "A" (Some "AAA"%string) 1 0 ].
End SameMonth.

(** * Part II: properties *)

(** ** The orders on keys *)

Class KeyLaws (K : Type) `{Key K} := {
  keqb_eq : forall a b : K, keqb a b = true <-> a = b;
  kleb_total : forall a b : K, kleb a b = true \/ kleb b a = true;
  kleb_trans : forall a b c : K, kleb a b = true -> kleb b c = true -> kleb a c = true;
  kleb_antisym : forall a b : K, kleb a b = true -> kleb b a = true -> a = b
}.

Lemma keqb_refl {K} `{KeyLaws K} (a : K) : keqb a a = true.
Proof. now apply keqb_eq. Qed.

Lemma keqb_neq {K} `{KeyLaws K} (a b : K) : keqb a b = false <-> a <> b.
Proof.
  rewrite <- keqb_eq. destruct (keqb a b); split; congruence.
Qed.

Lemma keqb_sym {K} `{KeyLaws K} (a b : K) : keqb a b = keqb b a.
Proof.
  destruct (keqb a b) eqn:E.
  - apply keqb_eq in E. subst. symmetry. apply keqb_refl.
  - destruct (keqb b a) eqn:E'; auto.
    apply keqb_eq in E'. subst. now rewrite keqb_refl in E.
Qed.

Lemma kleb_refl {K} `{KeyLaws K} (a : K) : kleb a a = true.
Proof. destruct (kleb_total a a); assumption. Qed.

Lemma ascii_compare_trans a b c o :
  Ascii.compare a b = o -> Ascii.compare b c = o -> Ascii.compare a c = o.
Proof.
  unfold Ascii.compare. intros H1 H2. destruct o.
  - apply N.compare_eq_iff in H1, H2. apply N.compare_eq_iff. congruence.
  - rewrite N.compare_lt_iff in *. lia.
  - rewrite N.compare_gt_iff in *. lia.
Qed.

Lemma ascii_compare_eq a b : Ascii.compare a b = Eq <-> a = b.
Proof.
  split.
  - apply Ascii.compare_eq_iff.
  - intros ->. unfold Ascii.compare. apply N.compare_refl.
Qed.

Lemma string_compare_refl s : String.compare s s = Eq.
Proof.
  induction s as [|a s IH]; simpl; auto.
  replace (Ascii.compare a a) with Eq; auto.
  symmetry. now apply ascii_compare_eq.
Qed.

Lemma string_compare_lt_trans s1 : forall s2 s3,
  String.compare s1 s2 = Lt -> String.compare s2 s3 = Lt ->
  String.compare s1 s3 = Lt.
Proof.
  induction s1 as [|a s1 IH]; intros [|b s2] [|c s3]; simpl; try congruence.
  destruct (Ascii.compare a b) eqn:Eab; try congruence;
    destruct (Ascii.compare b c) eqn:Ebc; try congruence; intros H1 H2.
  - apply ascii_compare_eq in Eab, Ebc. subst.
    replace (Ascii.compare c c) with Eq by (symmetry; now apply ascii_compare_eq).
    eauto.
  - apply ascii_compare_eq in Eab. subst. now rewrite Ebc.
  - apply ascii_compare_eq in Ebc. subst. now rewrite Eab.
  - now rewrite (ascii_compare_trans a b c Lt Eab Ebc).
Qed.

Lemma string_leb_spec s1 s2 :
  String.leb s1 s2 = true <-> s1 = s2 \/ String.compare s1 s2 = Lt.
Proof.
  unfold String.leb. destruct (String.compare s1 s2) eqn:E.
  - split; auto. intros _. left. now apply String.compare_eq_iff.
  - split; auto.
  - split; [discriminate|].
    intros [->|]; [now rewrite string_compare_refl in E | congruence].
Qed.

Lemma string_leb_trans s1 s2 s3 :
  String.leb s1 s2 = true -> String.leb s2 s3 = true -> String.leb s1 s3 = true.
Proof.
  rewrite !string_leb_spec. intros [->|H1] [->|H2]; auto.
  right. eapply string_compare_lt_trans; eauto.
Qed.

#[export] Instance string_KeyLaws : KeyLaws string := {
  keqb_eq := String.eqb_eq;
  kleb_total := String.leb_total;
  kleb_trans := string_leb_trans;
  kleb_antisym := String.leb_antisym
}.

Ltac bools :=
  repeat match goal with
  | H : _ && _ = true |- _ => apply andb_true_iff in H; destruct H
  | H : _ || _ = true |- _ => apply orb_true_iff in H; destruct H
  | H : Nat.eqb _ _ = true |- _ => apply Nat.eqb_eq in H
  | H : Nat.ltb _ _ = true |- _ => apply Nat.ltb_lt in H
  | H : Nat.leb _ _ = true |- _ => apply Nat.leb_le in H
  end.

Lemma date_leb_iff a b :
  date_leb a b = true <->
  (year a < year b \/
   (year a = year b /\
    (month a < month b \/ (month a = month b /\ day a <= day b))))%nat.
Proof.
  unfold date_leb.
  rewrite orb_true_iff, andb_true_iff, orb_true_iff, andb_true_iff.
  rewrite !Nat.ltb_lt, !Nat.eqb_eq, Nat.leb_le. tauto.
Qed.

Lemma date_eqb_eq a b : date_eqb a b = true <-> a = b.
Proof.
  unfold date_eqb. split.
  - intros H. bools. destruct a, b; simpl in *. congruence.
  - intros ->. now rewrite !Nat.eqb_refl.
Qed.

Lemma date_leb_total a b : date_leb a b = true \/ date_leb b a = true.
Proof. rewrite !date_leb_iff. lia. Qed.

Lemma date_leb_trans a b c :
  date_leb a b = true -> date_leb b c = true -> date_leb a c = true.
Proof. rewrite !date_leb_iff. lia. Qed.

Lemma date_leb_antisym a b :
  date_leb a b = true -> date_leb b a = true -> a = b.
Proof.
  rewrite !date_leb_iff. intros H1 H2.
  destruct a, b; simpl in *. f_equal; lia.
Qed.


#[export] Instance date_KeyLaws : KeyLaws Timestamp := {
  keqb_eq := date_eqb_eq;
  kleb_total := date_leb_total;
  kleb_trans := date_leb_trans;
  kleb_antisym := date_leb_antisym
}.

(** ** Lists: sums, duplicates, sorting *)

Lemma sumZ_app l1 l2 : sumZ (l1 ++ l2) = sumZ l1 + sumZ l2.
Proof. induction l1 as [|x l1 IH]; simpl; lia. Qed.

Lemma sumZ_map_add {A} (f g : A -> Z) l :
  sumZ (map (fun x => f x + g x) l) = sumZ (map f l) + sumZ (map g l).
Proof. induction l as [|x l IH]; simpl; lia. Qed.

Lemma sumZ_map_zero {A} (f : A -> Z) l :
  (forall x, In x l -> f x = 0) -> sumZ (map f l) = 0.
Proof.
  induction l as [|x l IH]; simpl; intros Hf; auto.
  rewrite (Hf x), IH; auto.
Qed.

Lemma sumZ_ones {A} (l : list A) : sumZ (map (fun _ => 1) l) = Z.of_nat (List.length l).
Proof. induction l as [|x l IH]; cbn [List.length map sumZ]; lia. Qed.

Lemma sumZ_flat_map {A B} (f : A -> list B) (w : B -> Z) l :
  sumZ (map w (flat_map f l)) = sumZ (map (fun a => sumZ (map w (f a))) l).
Proof.
  induction l as [|x l IH]; simpl; auto.
  now rewrite map_app, sumZ_app, IH.
Qed.

Lemma filter_filter_comm {A} (p q : A -> bool) l :
  filter p (filter q l) = filter q (filter p l).
Proof.
  induction l as [|x l IH]; simpl; auto.
  destruct (p x) eqn:Hp, (q x) eqn:Hq; simpl; rewrite ?Hp, ?Hq, IH; auto.
Qed.

Lemma filter_all {A} (p : A -> bool) l :
  (forall x, In x l -> p x = true) -> filter p l = l.
Proof.
  induction l as [|x l IH]; simpl; intros Hp; auto.
  rewrite (Hp x), IH; auto.
Qed.

Lemma filter_none {A} (p : A -> bool) l :
  (forall x, In x l -> p x = false) -> filter p l = [].
Proof.
  induction l as [|x l IH]; simpl; intros Hp; auto.
  rewrite (Hp x), IH; auto.
Qed.

Section Duplicates.
Context {A : Type} (eqb : A -> A -> bool).
Hypothesis eqb_eq : forall a b, eqb a b = true <-> a = b.

Lemma drop_duplicates_In x l : In x (drop_duplicates eqb l) <-> In x l.
Proof.
  induction l as [|y l IH]; simpl; [tauto|].
  rewrite filter_In, IH, negb_true_iff. split.
  - tauto.
  - intros [->|Hx]; auto.
    destruct (eqb y x) eqn:E; auto.
    apply eqb_eq in E. auto.
Qed.

Lemma drop_duplicates_NoDup l : NoDup (drop_duplicates eqb l).
Proof.
  induction l as [|y l IH]; simpl; constructor.
  - rewrite filter_In, negb_true_iff. intros [_ E].
    assert (eqb y y = true) by now apply eqb_eq. congruence.
  - now apply NoDup_filter.
Qed.

Lemma drop_duplicates_filter (p : A -> bool) l :
  filter p (drop_duplicates eqb l) = drop_duplicates eqb (filter p l).
Proof.
  induction l as [|y l IH]; simpl; auto.
  destruct (p y) eqn:Hp; simpl.
  - now rewrite filter_filter_comm, IH.
  - rewrite <- IH.
    generalize (drop_duplicates eqb l) as l'.
    induction l' as [|z l' IH']; simpl; auto.
    destruct (eqb y z) eqn:E; simpl.
    + apply eqb_eq in E. subst z. now rewrite Hp.
    + now rewrite IH'.
Qed.

(** A list whose entries are all equal has a single distinct value. *)
Lemma drop_duplicates_constant x l :
  (forall y, In y l -> y = x) -> l <> [] -> drop_duplicates eqb l = [x].
Proof.
  destruct l as [|y l]; [congruence|]. intros Hc _.
  assert (Hy : y = x) by (apply Hc; now left).
  simpl. rewrite Hy. f_equal.
  apply filter_none. intros z Hz.
  apply -> drop_duplicates_In in Hz.
  assert (Hz' : z = x) by (apply Hc; now right).
  rewrite Hz'. apply negb_false_iff. now apply eqb_eq.
Qed.
End Duplicates.

Lemma drop_duplicates_map {A B} (eqa : A -> A -> bool) (eqb : B -> B -> bool)
    (f : A -> B) l :
  (forall x y, eqb (f x) (f y) = eqa x y) ->
  drop_duplicates eqb (map f l) = map f (drop_duplicates eqa l).
Proof.
  intros Hf. induction l as [|x l IH]; simpl; auto.
  rewrite IH. f_equal.
  generalize (drop_duplicates eqa l) as l'.
  induction l' as [|z l' IH']; simpl; auto.
  rewrite Hf. destruct (eqa x z); simpl; now rewrite IH'.
Qed.

Section Sorting.
Context {A : Type} (leb : A -> A -> bool).

Lemma insert_perm x l : Permutation (insert leb x l) (x :: l).
Proof.
  induction l as [|y l IH]; simpl; auto.
  destruct (leb x y); auto.
  rewrite IH. apply perm_swap.
Qed.

Lemma isort_perm l : Permutation (isort leb l) l.
Proof.
  induction l as [|x l IH]; simpl; auto.
  rewrite insert_perm. now constructor.
Qed.

Hypothesis leb_total : forall a b, leb a b = true \/ leb b a = true.
Hypothesis leb_trans : forall a b c, leb a b = true -> leb b c = true -> leb a c = true.

Let le a b := leb a b = true.

Lemma insert_sorted x l : StronglySorted le l -> StronglySorted le (insert leb x l).
Proof.
  induction 1 as [|y l Hs IH Hy]; simpl.
  - repeat constructor.
  - destruct (leb x y) eqn:E.
    + constructor; [now constructor|].
      constructor; auto.
      eapply Forall_impl; [|exact Hy]. intros z Hz. eapply leb_trans; eauto.
    + constructor; auto.
      eapply Permutation_Forall; [symmetry; apply insert_perm|].
      constructor; auto.
      destruct (leb_total x y); [congruence|assumption].
Qed.

Lemma isort_sorted l : StronglySorted le (isort leb l).
Proof.
  induction l as [|x l IH]; simpl; [constructor|now apply insert_sorted].
Qed.
End Sorting.

(** ** Grouping *)

Section Grouping.
Context {K : Type} `{KeyLaws K}.

Lemma group_keys_perm (l : list K) :
  Permutation (group_keys l) (drop_duplicates keqb l).
Proof. apply isort_perm. Qed.

Lemma group_keys_In k (l : list K) : In k (group_keys l) <-> In k l.
Proof.
  rewrite <- (drop_duplicates_In keqb keqb_eq k l). split.
  - apply Permutation_in, group_keys_perm.
  - apply Permutation_in. symmetry. apply group_keys_perm.
Qed.

Lemma group_keys_NoDup (l : list K) : NoDup (group_keys l).
Proof.
  eapply Permutation_NoDup; [symmetry; apply group_keys_perm|].
  apply drop_duplicates_NoDup, keqb_eq.
Qed.

Lemma group_keys_sorted (l : list K) :
  StronglySorted (fun a b => kleb a b = true) (group_keys l).
Proof. apply isort_sorted; [apply kleb_total | apply kleb_trans]. Qed.

(** Distinct and ascending: strictly ascending. *)
Lemma sorted_NoDup_strict (l : list K) :
  StronglySorted (fun a b => kleb a b = true) l -> NoDup l ->
  StronglySorted (fun a b => kleb a b = true /\ a <> b) l.
Proof.
  induction 1 as [|x l Hs IH Hx]; intros Hn; constructor;
    inversion Hn; subst; auto.
  rewrite Forall_forall in *. intros y Hy. split; auto.
  intros ->. contradiction.
Qed.

Lemma group_keys_strict (l : list K) :
  StronglySorted (fun a b => kleb a b = true /\ a <> b) (group_keys l).
Proof.
  apply sorted_NoDup_strict; [apply group_keys_sorted | apply group_keys_NoDup].
Qed.

Context {R : Type} (by_ : R -> K).

Lemma groupby_keys (rows : list R) :
  map fst (groupby by_ rows) = group_keys (map by_ rows).
Proof.
  unfold groupby. rewrite map_map. simpl. apply map_id.
Qed.

Lemma indicator_sum (x : K) (v : Z) (ks : list K) :
  NoDup ks -> In x ks ->
  sumZ (map (fun k => if keqb x k then v else 0) ks) = v.
Proof.
  induction 1 as [|k ks Hk Hn IH]; simpl; [tauto|].
  intros [->|Hx].
  - rewrite keqb_refl, sumZ_map_zero; [lia|].
    intros y Hy. destruct (keqb x y) eqn:E; auto.
    apply keqb_eq in E. subst. contradiction.
  - rewrite IH by assumption.
    destruct (keqb x k) eqn:E; [|lia].
    apply keqb_eq in E. subst. contradiction.
Qed.

(** Summing group by group is summing over all rows, whatever is
    summed, as long as the keys are distinct and none is missed. *)
Lemma sum_groups (w : R -> Z) (ks : list K) (rows : list R) :
  NoDup ks -> (forall r, In r rows -> In (by_ r) ks) ->
  sumZ (map (fun k => sumZ (map w (filter (fun r => keqb (by_ r) k) rows))) ks)
  = sumZ (map w rows).
Proof.
  intros Hn. induction rows as [|r rows IH]; intros Hin.
  - simpl. apply sumZ_map_zero. auto.
  - simpl. rewrite <- IH by (intros; apply Hin; now right).
    assert (Hr : In (by_ r) ks) by (apply Hin; now left).
    rewrite <- (indicator_sum (by_ r) (w r) ks Hn Hr) at 1.
    rewrite <- sumZ_map_add. f_equal. apply map_ext. intros k.
    destruct (keqb (by_ r) k); simpl; lia.
Qed.

Lemma groupby_sum (w : R -> Z) (rows : list R) :
  sumZ (map (fun g => sumZ (map w (snd g))) (groupby by_ rows))
  = sumZ (map w rows).
Proof.
  unfold groupby. rewrite map_map. simpl.
  apply sum_groups; [apply group_keys_NoDup|].
  intros r Hr. apply group_keys_In. now apply in_map.
Qed.

(** Among rows that carry their group's key, the rows of one key. *)
Lemma filter_flat_map_key {B} (key : B -> K) (f : K -> list B) (ks : list K) c :
  (forall k b, In b (f k) -> key b = k) -> NoDup ks ->
  filter (fun b => keqb (key b) c) (flat_map f ks)
  = if existsb (keqb c) ks then f c else [].
Proof.
  intros Hkey. induction 1 as [|k ks Hk Hn IH]; simpl; auto.
  rewrite filter_app, IH. destruct (keqb c k) eqn:E; simpl.
  - apply keqb_eq in E. subst k.
    rewrite filter_all.
    + destruct (existsb (keqb c) ks) eqn:Ex; [|apply app_nil_r].
      apply existsb_exists in Ex. destruct Ex as [y [Hy Ey]].
      apply keqb_eq in Ey. subst. contradiction.
    + intros b Hb. rewrite (Hkey _ _ Hb). apply keqb_refl.
  - rewrite filter_none; auto.
    intros b Hb. rewrite (Hkey _ _ Hb). now rewrite keqb_sym.
Qed.

Lemma existsb_keqb c (ks : list K) : existsb (keqb c) ks = true <-> In c ks.
Proof.
  rewrite existsb_exists. split.
  - intros [y [Hy E]]. apply keqb_eq in E. now subst.
  - intros Hc. exists c. split; auto. apply keqb_refl.
Qed.
End Grouping.

(** ** The country-code join *)

Lemma code_eqb_eq a b : code_eqb a b = true <-> a = b.
Proof.
  destruct a as [x|], b as [y|]; simpl; try (split; congruence).
  rewrite String.eqb_eq. split; congruence.
Qed.

Lemma pair_eqb_eq a b : pair_eqb a b = true <-> a = b.
Proof.
  unfold pair_eqb. rewrite andb_true_iff, String.eqb_eq, code_eqb_eq.
  destruct a, b; simpl. split; [intros []|intros [=]]; subst; auto.
Qed.

Lemma filter_map_comm {A B} (p : B -> bool) (f : A -> B) l :
  filter p (map f l) = map f (filter (fun a => p (f a)) l).
Proof.
  induction l as [|x l IH]; simpl; auto.
  destruct (p (f x)); simpl; now rewrite IH.
Qed.

Lemma flat_map_map_in {A B C} (g : A -> B) (f : B -> list C) (h : A -> list C) l :
  (forall a, In a l -> f (g a) = h a) -> flat_map f (map g l) = flat_map h l.
Proof.
  induction l as [|x l IH]; simpl; intros Hh; auto.
  rewrite Hh, IH; auto.
Qed.

Lemma select_country_In data c r :
  In r (select_country data c) <-> In r data /\ countriesAndTerritories r = c.
Proof. unfold select_country. now rewrite filter_In, String.eqb_eq. Qed.

Lemma select_country_nonempty data c :
  In c (map countriesAndTerritories data) -> select_country data c <> [].
Proof.
  rewrite in_map_iff. intros [r [Hc Hr]] E.
  assert (In r (select_country data c)) by now apply select_country_In.
  rewrite E in *. contradiction.
Qed.

Lemma select_country_absent data c :
  ~ In c (map countriesAndTerritories data) -> select_country data c = [].
Proof.
  intros Hc. apply filter_none. intros r Hr.
  apply String.eqb_neq. intros E. apply Hc. subst. now apply in_map.
Qed.

Lemma iso_mapping_country data c :
  filter (fun p => String.eqb (fst p) c) (iso_mapping data)
  = map (pair c) (codes_of data c).
Proof.
  unfold iso_mapping, codes_of.
  rewrite (drop_duplicates_filter pair_eqb pair_eqb_eq), filter_map_comm. simpl.
  fold (select_country data c).
  rewrite <- (drop_duplicates_map code_eqb pair_eqb (pair c)).
  - f_equal. rewrite map_map. apply map_ext_in. intros r Hr.
    apply select_country_In in Hr. destruct Hr as [_ <-]. reflexivity.
  - intros x y. unfold pair_eqb. simpl. now rewrite String.eqb_refl.
Qed.

Lemma codes_of_nonempty data c :
  In c (map countriesAndTerritories data) -> codes_of data c <> [].
Proof.
  intros Hc. apply select_country_nonempty in Hc. unfold codes_of.
  destruct (select_country data c); [congruence|]. simpl. discriminate.
Qed.

(** The merged table, country by country: one row per distinct code
    value of the country, each with the country's total. *)
Lemma total_cases_by_country_rows data :
  total_cases_by_country data
  = flat_map (fun c => map (mkCountryTotal c (sumZ (map cases (select_country data c))))
                           (codes_of data c))
             (group_keys (map countriesAndTerritories data)).
Proof.
  unfold total_cases_by_country, merge_left, groupby_country_cases, groupby.
  rewrite map_map. apply flat_map_map_in. intros c Hc. simpl.
  rewrite iso_mapping_country.
  apply group_keys_In, codes_of_nonempty in Hc.
  destruct (codes_of data c) as [|k ks]; [congruence|].
  simpl. now rewrite map_map.
Qed.

Lemma total_cases_by_country_of data c :
  filter (fun t => String.eqb (ct_country t) c) (total_cases_by_country data)
  = map (mkCountryTotal c (sumZ (map cases (select_country data c))))
        (codes_of data c).
Proof.
  rewrite total_cases_by_country_rows.
  change (fun t => String.eqb (ct_country t) c)
    with (fun t => keqb (ct_country t) c).
  rewrite (filter_flat_map_key (K := string) ct_country).
  - destruct (existsb (keqb c) (group_keys (map countriesAndTerritories data))) eqn:E; auto.
    assert (Hc : ~ In c (map countriesAndTerritories data)).
    { rewrite <- group_keys_In, <- existsb_keqb. congruence. }
    unfold codes_of. now rewrite (select_country_absent _ _ Hc).
  - intros k b Hb. apply in_map_iff in Hb. destruct Hb as [x [<- _]]. reflexivity.
  - apply group_keys_NoDup.
Qed.

Lemma total_cases_by_country_length data :
  List.length (total_cases_by_country data) = List.length (iso_mapping data).
Proof.
  apply Nat2Z.inj. rewrite <- !sumZ_ones.
  rewrite total_cases_by_country_rows, sumZ_flat_map.
  rewrite <- (sum_groups (K := string) fst (fun _ => 1)
                (group_keys (map countriesAndTerritories data)) (iso_mapping data)).
  - f_equal. apply map_ext. intros c. simpl.
    change (fun r : string * option string => String.eqb (fst r) c)
      with (fun p : string * option string => String.eqb (fst p) c).
    rewrite iso_mapping_country, !sumZ_ones, !length_map. reflexivity.
  - apply group_keys_NoDup.
  - intros p Hp. apply group_keys_In.
    unfold iso_mapping in Hp. apply -> (drop_duplicates_In pair_eqb pair_eqb_eq) in Hp.
    apply in_map_iff in Hp. destruct Hp as [r [<- Hr]]. simpl. now apply in_map.
Qed.

Lemma codes_consistentb_spec data :
  codes_consistentb data = true ->
  forall r1 r2, In r1 data -> In r2 data ->
    countriesAndTerritories r1 = countriesAndTerritories r2 ->
    countryterritoryCode r1 = countryterritoryCode r2.
Proof.
  unfold codes_consistentb. rewrite forallb_forall. intros Hc r1 r2 H1 H2 E.
  specialize (Hc r1 H1). rewrite forallb_forall in Hc. specialize (Hc r2 H2).
  rewrite E, String.eqb_refl in Hc. simpl in Hc. now apply code_eqb_eq.
Qed.

Lemma codes_of_consistent data c :
  codes_consistentb data = true ->
  In c (map countriesAndTerritories data) ->
  exists k, codes_of data c = [k].
Proof.
  intros Hc Hin. pose proof (select_country_nonempty _ _ Hin) as Hne.
  destruct (select_country data c) as [|r0 rs] eqn:Es; [congruence|].
  exists (countryterritoryCode r0). unfold codes_of. rewrite Es.
  apply (drop_duplicates_constant code_eqb code_eqb_eq); [|discriminate].
  intros y Hy. apply in_map_iff in Hy. destruct Hy as [r [<- Hr]].
  rewrite <- Es in Hr.
  assert (H0 : In r0 (select_country data c)) by (rewrite Es; now left).
  apply select_country_In in Hr, H0. destruct Hr, H0.
  apply (codes_consistentb_spec _ Hc); auto. congruence.
Qed.

Lemma distinct_countries_keys data :
  List.length (group_keys (map countriesAndTerritories data)) = distinct_countries data.
Proof.
  unfold distinct_countries. apply Permutation_length.
  exact (group_keys_perm (map countriesAndTerritories data)).
Qed.

Lemma StronglySorted_impl {A} (P Q : A -> A -> Prop) l :
  (forall a b, P a b -> Q a b) -> StronglySorted P l -> StronglySorted Q l.
Proof.
  intros HPQ. induction 1 as [|x l Hs IH Hx]; constructor; auto.
  eapply Forall_impl; [|exact Hx]. auto.
Qed.


Lemma firstn_In {A} (x : A) n l : In x (firstn n l) -> In x l.
Proof.
  revert l. induction n as [|n IH]; intros [|y l]; simpl; try tauto.
  intros [->|Hx]; auto.
Qed.

Lemma skipn_In {A} (x : A) n l : In x (skipn n l) -> In x l.
Proof.
  revert l. induction n as [|n IH]; intros [|y l]; simpl; auto.
Qed.

(** In a sorted list, the rows kept by [head] come before all the
    rows it leaves out. *)
Lemma StronglySorted_firstn_skipn {A} (P : A -> A -> Prop) n l :
  StronglySorted P l ->
  Forall (fun a => Forall (P a) (skipn n l)) (firstn n l).
Proof.
  intros Hs. revert n. induction Hs as [|x l Hs IH Hx]; intros [|n]; simpl;
    constructor; auto.
  rewrite Forall_forall in *. intros y Hy. apply Hx.
  eapply skipn_In; eauto.
Qed.

Lemma StronglySorted_firstn {A} (P : A -> A -> Prop) n l :
  StronglySorted P l -> StronglySorted P (firstn n l).
Proof.
  intros Hs. revert n. induction Hs as [|x l Hs IH Hx]; intros [|n]; simpl;
    constructor; auto.
  rewrite Forall_forall in *. intros y Hy. apply Hx.
  eapply firstn_In; eauto.
Qed.

(** ** The scenario of the specification, computed *)

Example scenario_tables :
  total_cases_by_country Scenario.data
    = [ mkCountryTotal "A" 30 (Some "AAA"%string);
        mkCountryTotal "B" 5 (Some "BBB"%string) ]
  /\ daily_cases Scenario.data
    = [ mkDailyTotal Scenario.d1 15; mkDailyTotal Scenario.d2 20 ]
  /\ top_countries Scenario.data = total_cases_by_country Scenario.data
  /\ range_query Scenario.data "A"
       (date_input (mkDay 2020 1 1)) (date_input (mkDay 2020 1 2))
    = Raised invalid_comparison.
Proof. repeat split. Qed.

(** * The three aggregation paths *)

Lemma groupby_country_cases_sum data :
  sumZ (map cc_cases (groupby_country_cases data)) = sumZ (map cases data).
Proof.
  unfold groupby_country_cases. rewrite map_map. simpl.
  apply (groupby_sum countriesAndTerritories cases).
Qed.

Lemma daily_cases_sum data :
  sumZ (map dt_cases (daily_cases data)) = sumZ (map cases data).
Proof.
  unfold daily_cases. rewrite map_map. simpl.
  apply (groupby_sum dateRep cases).
Qed.

Lemma total_cases_by_country_sum data :
  codes_consistentb data = true ->
  sumZ (map ct_cases (total_cases_by_country data)) = sumZ (map cases data).
Proof.
  intros Hc. rewrite <- groupby_country_cases_sum.
  rewrite total_cases_by_country_rows, sumZ_flat_map.
  unfold groupby_country_cases, groupby. rewrite !map_map. simpl.
  f_equal. apply map_ext_in. intros c Hin.
  apply (proj1 (group_keys_In c _)) in Hin.
  destruct (codes_of_consistent _ _ Hc Hin) as [k ->].
  cbn [map sumZ ct_cases]. rewrite Z.add_0_r. reflexivity.
Qed.

(** C1 (as amended): for every dataset the per-country sums of line 35
    and the daily totals each add up to the sum of the raw [cases]
    column; the merged totals table of line 37 adds up to the same sum,
    so that the three paths agree, when every country name carries a
    single code value. *)
Theorem aggregation_paths_agree (data : DataFrame) :
  sumZ (map cc_cases (groupby_country_cases data)) = sumZ (map cases data)
  /\ sumZ (map dt_cases (daily_cases data)) = sumZ (map cases data)
  /\ (codes_consistentb data = true -> three_paths_agree data).
Proof.
  split; [apply groupby_country_cases_sum|].
  split; [apply daily_cases_sum|].
  intros Hc. split.
  - now rewrite daily_cases_sum, total_cases_by_country_sum.
  - apply daily_cases_sum.
Qed.

Lemma aggregation_paths_agree_witness :
  codes_consistentb MissingCode.data = true /\ three_paths_agree MissingCode.data.
Proof.
  split; [reflexivity|].
  apply (proj2 (proj2 (aggregation_paths_agree MissingCode.data))). reflexivity.
Defined.

(** C1 as stated fails: with one country under two codes, the merge
    repeats the country's total, and the totals sum to 6 against 3. *)
Lemma aggregation_paths_disagree : ~ three_paths_agree TwoCodes.data.
Proof. intros [H _]. vm_compute in H. discriminate. Qed.

(** * The ranking *)

Lemma sort_values_desc_sorted {R} (by_ : R -> Z) (rows : list R) :
  StronglySorted (fun a b => by_ b <= by_ a) (sort_values_desc by_ rows).
Proof.
  unfold sort_values_desc.
  eapply StronglySorted_impl;
    [|apply (isort_sorted (fun a b => Z.leb (by_ b) (by_ a)))].
  - intros a b. apply Z.leb_le.
  - intros a b. rewrite !Z.leb_le. lia.
  - intros a b c. rewrite !Z.leb_le. lia.
Qed.

Lemma top_countries_length data :
  List.length (top_countries data) = Nat.min 10 (List.length (iso_mapping data)).
Proof.
  unfold top_countries. rewrite length_firstn. f_equal.
  unfold sort_values_desc.
  rewrite (Permutation_length (isort_perm _ _)).
  apply total_cases_by_country_length.
Qed.

Lemma iso_mapping_length_consistent data :
  codes_consistentb data = true ->
  List.length (iso_mapping data) = distinct_countries data.
Proof.
  intros Hc. rewrite <- total_cases_by_country_length, <- distinct_countries_keys.
  apply Nat2Z.inj. rewrite <- !sumZ_ones.
  rewrite total_cases_by_country_rows, sumZ_flat_map.
  f_equal. apply map_ext_in. intros c Hin.
  apply (proj1 (group_keys_In c _)) in Hin.
  destruct (codes_of_consistent _ _ Hc Hin) as [k ->]. reflexivity.
Qed.

(** C3 (as amended): [top_countries] is the merged totals table sorted by
    descending [cases] and cut to its first 10 rows: the sorted table is
    a rearrangement of the totals table, no row left out has more cases
    than a row kept, and adjacent rows are non-increasing. Its length is
    the smaller of 10 and the number of distinct (name, code) pairs,
    which is the number of distinct names when every country carries a
    single code value. *)
Theorem top_countries_ranked (data : DataFrame) :
  let ranked := sort_values_desc ct_cases (total_cases_by_country data) in
  top_countries data = firstn 10 ranked
  /\ Permutation ranked (total_cases_by_country data)
  /\ StronglySorted non_increasing ranked
  /\ Forall (fun kept => Forall (non_increasing kept) (skipn 10 ranked))
            (top_countries data)
  /\ Sorted non_increasing (top_countries data)
  /\ List.length (top_countries data) = Nat.min 10 (List.length (iso_mapping data))
  /\ (codes_consistentb data = true ->
      List.length (top_countries data) = Nat.min 10 (distinct_countries data)).
Proof.
  intros ranked.
  split; [reflexivity|].
  split; [apply isort_perm|].
  split; [apply sort_values_desc_sorted|].
  split; [apply StronglySorted_firstn_skipn, sort_values_desc_sorted|].
  split; [apply StronglySorted_Sorted, StronglySorted_firstn,
            sort_values_desc_sorted|].
  split; [apply top_countries_length|].
  intros Hc. rewrite top_countries_length. f_equal.
  now apply iso_mapping_length_consistent.
Qed.

Lemma top_countries_ranked_witness :
  codes_consistentb MissingCode.data = true
  /\ List.length (top_countries MissingCode.data)
     = Nat.min 10 (distinct_countries MissingCode.data).
Proof.
  split; [reflexivity|].
  apply (top_countries_ranked MissingCode.data). reflexivity.
Defined.

(** C3 as stated fails on the length: one country under two codes gives
    two ranked rows for a single distinct name. *)
Lemma top_countries_length_not_names :
  List.length (top_countries TwoCodes.data)
  <> Nat.min 10 (distinct_countries TwoCodes.data).
Proof. vm_compute. discriminate. Qed.

(** * Countries with several codes, or none *)

(** C4 (as amended): the totals table has, for a country, one row per
    distinct code value on that country's rows (a missing code being one
    value), in first-seen order and each with the country's total; the
    first of them carries the code of the country's first row; and when
    all rows of the country carry the same code value, missing or not,
    the country has exactly that one row. *)
Theorem total_cases_by_country_codes (data : DataFrame) (country : string) :
  rows_of_country data country
    = map (mkCountryTotal country (sumZ (map cases (select_country data country))))
          (codes_of data country)
  /\ hd_error (codes_of data country)
     = hd_error (map countryterritoryCode (select_country data country))
  /\ NoDup (codes_of data country)
  /\ (forall k,
        select_country data country <> [] ->
        Forall (fun r => countryterritoryCode r = k) (select_country data country) ->
        rows_of_country data country
        = [mkCountryTotal country (sumZ (map cases (select_country data country))) k]).
Proof.
  split; [apply total_cases_by_country_of|].
  split; [unfold codes_of; now destruct (select_country data country)|].
  split; [apply drop_duplicates_NoDup, code_eqb_eq|].
  intros k Hne Hall. unfold rows_of_country.
  rewrite total_cases_by_country_of. unfold codes_of.
  rewrite (drop_duplicates_constant code_eqb code_eqb_eq k); auto.
  - intros y Hy. apply in_map_iff in Hy. destruct Hy as [r [<- Hr]].
    rewrite Forall_forall in Hall. auto.
  - destruct (select_country data country); [congruence|discriminate].
Qed.

Lemma total_cases_by_country_codes_witness :
  select_country MissingCode.data "B" <> []
  /\ Forall (fun r => countryterritoryCode r = None) (select_country MissingCode.data "B")
  /\ rows_of_country MissingCode.data "B" = [mkCountryTotal "B" 8 None].
Proof.
  assert (Hne : select_country MissingCode.data "B" <> []) by (vm_compute; discriminate).
  assert (Hall : Forall (fun r => countryterritoryCode r = None)
                        (select_country MissingCode.data "B"))
    by (vm_compute; repeat constructor).
  split; [exact Hne | split; [exact Hall|]].
  destruct (total_cases_by_country_codes MissingCode.data "B") as (_ & _ & _ & H).
  exact (H None Hne Hall).
Defined.

(** C4 as stated fails: a country under two codes gets two rows. *)
Lemma two_codes_two_rows :
  rows_of_country TwoCodes.data "A"
  = [mkCountryTotal "A" 3 (Some "AAA"%string); mkCountryTotal "A" 3 (Some "AAB"%string)]
  /\ List.length (rows_of_country TwoCodes.data "A") <> 1%nat.
Proof. split; [reflexivity | vm_compute; discriminate]. Qed.

(** * Cases and deaths against the totals *)

Lemma cases_deaths_rows data :
  cases_deaths data
  = map (fun c => mkCountryCasesDeaths c
                    (sumZ (map cases (select_country data c)))
                    (sumZ (map deaths (select_country data c))))
        (group_keys (map countriesAndTerritories data)).
Proof. unfold cases_deaths, groupby. now rewrite map_map. Qed.

(** C9: for a country of the dataset, [cases_deaths] and the totals table
    each have a row, and every row of either for that country carries
    the same [cases] total, the sum over the country's rows. *)
Theorem cases_deaths_total_agree (data : DataFrame) (country : string) :
  In country (map countriesAndTerritories data) ->
  let total := sumZ (map cases (select_country data country)) in
  (exists d, In d (cases_deaths data) /\ cd_country d = country)
  /\ (exists t, In t (total_cases_by_country data) /\ ct_country t = country)
  /\ (forall d t,
        In d (cases_deaths data) -> cd_country d = country ->
        In t (total_cases_by_country data) -> ct_country t = country ->
        cd_cases d = total /\ ct_cases t = total /\ cd_cases d = ct_cases t).
Proof.
  intros Hin total.
  assert (Hcd : forall d, In d (cases_deaths data) -> cd_country d = country ->
                          cd_cases d = total).
  { intros d Hd Hc. rewrite cases_deaths_rows in Hd.
    apply in_map_iff in Hd. destruct Hd as [c [<- _]]. simpl in *. now subst. }
  assert (Hct : forall t, In t (total_cases_by_country data) -> ct_country t = country ->
                          ct_cases t = total).
  { intros t Ht Hc.
    assert (Hr : In t (rows_of_country data country)).
    { apply filter_In. split; auto. now apply String.eqb_eq. }
    unfold rows_of_country in Hr. rewrite total_cases_by_country_of in Hr.
    apply in_map_iff in Hr. destruct Hr as [k [<- _]]. reflexivity. }
  split; [|split].
  - eexists. split.
    + rewrite cases_deaths_rows. apply in_map.
      apply group_keys_In. exact Hin.
    + reflexivity.
  - pose proof (codes_of_nonempty _ _ Hin) as Hne.
    destruct (codes_of data country) as [|k ks] eqn:Ek; [congruence|].
    exists (mkCountryTotal country total k). split; [|reflexivity].
    assert (Hr : In (mkCountryTotal country total k) (rows_of_country data country)).
    { unfold rows_of_country. rewrite total_cases_by_country_of, Ek. now left. }
    apply filter_In in Hr. tauto.
  - intros d t Hd Hdc Ht Htc.
    rewrite (Hcd d Hd Hdc), (Hct t Ht Htc). auto.
Qed.

Lemma cases_deaths_total_agree_witness :
  In "B"%string (map countriesAndTerritories MissingCode.data)
  /\ exists d t,
       In d (cases_deaths MissingCode.data) /\ cd_country d = "B"%string
       /\ In t (total_cases_by_country MissingCode.data) /\ ct_country t = "B"%string
       /\ cd_cases d = ct_cases t.
Proof.
  assert (Hin : In "B"%string (map countriesAndTerritories MissingCode.data))
    by (simpl; auto).
  split; [exact Hin|].
  destruct (cases_deaths_total_agree MissingCode.data "B" Hin)
    as ((d & Hd & Hdc) & (t & Ht & Htc) & Hall).
  exists d, t. repeat split; auto.
  apply (Hall d t Hd Hdc Ht Htc).
Defined.

(** * The daily series *)

Lemma daily_cases_rows data :
  daily_cases data
  = map (fun d => mkDailyTotal d (sumZ (map cases (filter (date_of_row_is d) data))))
        (group_keys (map dateRep data)).
Proof. unfold daily_cases, groupby. now rewrite map_map. Qed.



(** * The monthly view *)

Lemma sort_values_sorted {K} `{KeyLaws K} {R} (by_ : R -> K) (rows : list R) :
  StronglySorted (fun a b => kleb (by_ a) (by_ b) = true) (sort_values by_ rows).
Proof.
  unfold sort_values. apply isort_sorted.
  - intros a b. apply kleb_total.
  - intros a b c. apply kleb_trans.
Qed.

Lemma sort_values_perm {K} `{KeyLaws K} {R} (by_ : R -> K) (rows : list R) :
  Permutation (sort_values by_ rows) rows.
Proof. apply isort_perm. Qed.

(** C8: the rows handed to the monthly histogram are the selected
    country's rows, each with the [YYYY-MM] label of its own date, in
    ascending order of the full date [dateRep]; the label is not the
    sort key. *)
Theorem country_cases_chronological (data : DataFrame) (country : string) :
  Permutation (country_cases data country)
              (add_year_month (select_country data country))
  /\ StronglySorted chronological (country_cases data country)
  /\ Forall (fun m => year_month m = year_month_str (mr_date m)
                      /\ countriesAndTerritories (mr_row m) = country)
            (country_cases data country).
Proof.
  split; [apply sort_values_perm|].
  split; [exact (sort_values_sorted (K := Timestamp) mr_date _)|].
  eapply Permutation_Forall; [symmetry; apply sort_values_perm|].
  unfold add_year_month. apply Forall_map, Forall_forall.
  intros r Hr. apply select_country_In in Hr. simpl. tauto.
Qed.

(** Sorting by the label instead would leave the days of a month in
    file order; the code's order is by day within the month. *)
Example country_cases_sorts_within_month :
  map mr_date (country_cases SameMonth.data "A")
    = [mkDate 2019 12 30; mkDate 2020 1 3; mkDate 2020 1 15]
  /\ map mr_date (sort_values year_month
                    (add_year_month (select_country SameMonth.data "A")))
    = [mkDate 2019 12 30; mkDate 2020 1 15; mkDate 2020 1 3]
  /\ map year_month (country_cases SameMonth.data "A")
    = ["2019-12"; "2020-01"; "2020-01"]%string.
Proof. repeat split. Qed.

(** * The range query *)

Lemma reparse_dateRep_id rows : reparse_dateRep rows = rows.
Proof.
  unfold reparse_dateRep, to_datetime.
  rewrite <- (map_id rows) at 2. apply map_ext. now intros [].
Qed.

(** Against a [datetime.date] the mask of line 160 is not computed,
    whatever the frame. *)
Lemma mask_dates_raises frame (s e : Date) :
  mask frame (date_input s) (date_input e) = Raised invalid_comparison.
Proof. reflexivity. Qed.

Lemma submitted_dates_raises frame (s e : Date) :
  masked_mean frame (date_input s) (date_input e) = Raised invalid_comparison
  /\ submitted frame (date_input s) (date_input e) = Raised invalid_comparison.
Proof. split; reflexivity. Qed.

(** Against timestamps the mask is the inclusive window, and the mean
    is taken over the rows inside it. *)
Lemma mask_timestamps frame (s e : Timestamp) :
  mask frame (PyTimestamp s) (PyTimestamp e)
  = Returned (map (fun r => date_leb s (dateRep r) && date_leb (dateRep r) e) frame).
Proof.
  unfold mask, column_ge, column_le, column_and. f_equal.
  induction frame as [|r frame IH]; simpl; auto. now rewrite IH.
Qed.

Lemma loc_cases_map (p : Row -> bool) frame :
  loc_cases frame (map p frame) = map cases (filter p frame).
Proof.
  unfold loc_cases. induction frame as [|r frame IH]; simpl; auto.
  destruct (p r); simpl; now rewrite IH.
Qed.

Lemma avg_cases_timestamps data country (s e : Timestamp) :
  avg_cases data country (PyTimestamp s) (PyTimestamp e)
  = Returned (mean (map cases
       (filter (fun r => date_leb s (dateRep r) && date_leb (dateRep r) e)
               (select_country data country)))).
Proof.
  unfold avg_cases, masked_mean, avg_period_country_cases.
  now rewrite reparse_dateRep_id, mask_timestamps, loc_cases_map.
Qed.

(** C2 (the code departs from it): once the form is submitted, line 160
    raises [TypeError] for every dataset, country and pair of dates:
    no mean is computed, and neither the warning of line 164 nor the
    metric of line 166 is shown, whether or not rows of the country lie
    in the window. *)
Theorem range_query_raises_on_submit (data : DataFrame) (country : string)
    (start_period end_period : Date) :
  mask (avg_period_country_cases data country)
       (date_input start_period) (date_input end_period)
    = Raised invalid_comparison
  /\ avg_cases data country (date_input start_period) (date_input end_period)
     = Raised invalid_comparison
  /\ range_query data country (date_input start_period) (date_input end_period)
     = Raised invalid_comparison
  /\ range_query data country (date_input start_period) (date_input end_period)
     <> Returned no_data
  /\ (forall q,
        range_query data country (date_input start_period) (date_input end_period)
        <> Returned (metric q)).
Proof.
  unfold range_query, avg_cases.
  destruct (submitted_dates_raises (avg_period_country_cases data country)
              start_period end_period) as [Hm Hs].
  rewrite Hm, Hs, mask_dates_raises.
  repeat split; try discriminate.
Qed.

(** C5 (the code departs from it): with the same day [d] entered as
    start and as end, the submit raises [TypeError] at line 160; the
    rows of that day are not selected and no mean is shown. *)
Theorem range_query_single_day_raises (data : DataFrame) (country : string)
    (d : Date) :
  range_query data country (date_input d) (date_input d)
    = Raised invalid_comparison
  /\ range_query Scenario.data "A"
       (date_input (mkDay 2020 1 1)) (date_input (mkDay 2020 1 1))
     = Raised invalid_comparison.
Proof.
  split; [|reflexivity].
  apply (submitted_dates_raises (avg_period_country_cases data country) d d).
Qed.

(** C6 (the code departs from it): with the start after the end, as
    with any other pair of dates, the submit raises [TypeError] at
    line 160; no filtered subset is computed and the warning of line
    164 is not reached. *)
Theorem range_query_reversed_bounds_raises (data : DataFrame) (country : string)
    (start_period end_period : Date) :
  mask (avg_period_country_cases data country)
       (date_input start_period) (date_input end_period)
    = Raised invalid_comparison
  /\ range_query data country (date_input start_period) (date_input end_period)
     = Raised invalid_comparison
  /\ range_query Scenario.data "A"
       (date_input (mkDay 2020 1 2)) (date_input (mkDay 2020 1 1))
     = Raised invalid_comparison
  /\ range_query Scenario.data "A"
       (date_input (mkDay 2020 1 2)) (date_input (mkDay 2020 1 1))
     <> Returned no_data.
Proof.
  split; [apply mask_dates_raises|].
  split; [apply (submitted_dates_raises (avg_period_country_cases data country))|].
  split; [reflexivity | discriminate].
Qed.

(** * The cached dataset is never written *)

Module StoreFacts.
Import Store.

Lemma update_last {A} (l : list A) (x y : A) :
  update (List.length l) y (l ++ [x]) = l ++ [y].
Proof. induction l as [|z l IH]; simpl; congruence. Qed.

Lemma get_last h f : get (List.length h) (h ++ [f]) = (f, h ++ [f]).
Proof. unfold get. now rewrite nth_middle. Qed.

Lemma put_last h f g : put (List.length h) g (h ++ [f]) = (tt, h ++ [g]).
Proof. unfold put. now rewrite update_last. Qed.

Lemma getitem_bool_data loaded h p :
  nth data h (Plain []) = Plain loaded ->
  getitem_bool data p h = (List.length h, h ++ [Plain (filter p loaded)]).
Proof. intros Hd. unfold getitem_bool, bind, get, alloc. now rewrite Hd. Qed.

Lemma copy_last h f :
  copy (List.length h) (h ++ [f]) = (List.length (h ++ [f]), (h ++ [f]) ++ [f]).
Proof. unfold copy, bind. now rewrite get_last. Qed.

Lemma setitem_year_month_last h f :
  setitem_year_month (List.length h) (h ++ [f])
  = (tt, h ++ [WithMonth (add_year_month (rows_of f))]).
Proof. unfold setitem_year_month, bind. now rewrite get_last, put_last. Qed.

Lemma setitem_dateRep_last h rows :
  setitem_dateRep (List.length h) (h ++ [Plain rows])
  = (tt, h ++ [Plain (reparse_dateRep rows)]).
Proof. unfold setitem_dateRep, bind. now rewrite get_last, put_last. Qed.

Lemma sort_values_dateRep_last h rows :
  sort_values_dateRep (List.length h) (h ++ [WithMonth rows])
  = (List.length (h ++ [WithMonth rows]),
     (h ++ [WithMonth rows]) ++ [WithMonth (sort_values mr_date rows)]).
Proof. unfold sort_values_dateRep, bind. now rewrite get_last. Qed.

(** The monthly view creates three frames and writes only into the
    second, its own copy. *)
Lemma monthly_histogram_run loaded h country :
  nth data h (Plain []) = Plain loaded ->
  monthly_histogram country h
  = (OutMonthly (WithMonth (country_cases loaded country)),
     h ++ [ Plain (select_country loaded country);
            WithMonth (add_year_month (select_country loaded country));
            WithMonth (country_cases loaded country) ]).
Proof.
  intros Hd. unfold monthly_histogram, bind.
  rewrite (getitem_bool_data loaded h _ Hd).
  rewrite copy_last, setitem_year_month_last, sort_values_dateRep_last, get_last.
  unfold ret. cbn [rows_of]. fold (select_country loaded country).
  fold (country_cases loaded country).
  now rewrite <- !app_assoc.
Qed.

(** The range form creates two frames and writes only into the second. *)
Lemma range_form_run loaded h country s e :
  nth data h (Plain []) = Plain loaded ->
  range_form country s e h
  = (OutRange (range_query loaded country (date_input s) (date_input e)),
     h ++ [ Plain (select_country loaded country);
            Plain (avg_period_country_cases loaded country) ]).
Proof.
  intros Hd. unfold range_form, bind.
  rewrite (getitem_bool_data loaded h _ Hd).
  rewrite copy_last, setitem_dateRep_last, get_last.
  unfold ret. cbn [rows_of]. fold (select_country loaded country).
  fold (avg_period_country_cases loaded country).
  fold (range_query loaded country (date_input s) (date_input e)).
  now rewrite <- !app_assoc.
Qed.

Lemma run_spec loaded v h :
  nth data h (Plain []) = Plain loaded ->
  exists created, run v h = (expected loaded v, h ++ created).
Proof.
  intros Hd. destruct v; simpl.
  1-4: exists []; unfold bind, get, ret; now rewrite Hd, app_nil_r.
  - eexists. now apply monthly_histogram_run.
  - eexists. now apply range_form_run.
Qed.

Lemma data_kept loaded h created :
  nth data h (Plain []) = Plain loaded -> h <> [] ->
  nth data (h ++ created) (Plain []) = Plain loaded.
Proof. destruct h; [congruence|]. auto. Qed.

Lemma run_all_spec loaded vs : forall h,
  nth data h (Plain []) = Plain loaded -> h <> [] ->
  exists created, run_all vs h = (map (expected loaded) vs, h ++ created).
Proof.
  induction vs as [|v vs IH]; intros h Hd Hne.
  - exists []. simpl. unfold ret. now rewrite app_nil_r.
  - destruct (run_spec loaded v h Hd) as [c1 E1].
    destruct (IH (h ++ c1)) as [c2 E2].
    + now apply data_kept.
    + destruct h; [congruence|discriminate].
    + exists (c1 ++ c2). simpl. unfold bind. rewrite E1, E2.
      unfold ret. now rewrite app_assoc.
Qed.

(** C10: whatever views are computed and in whatever order, each gives
    the table defined above, and the store afterwards is the initial
    one followed by newly created frames: [data] still holds the
    loaded dataset. The monthly view and the range form write only
    into the copy each has made. *)
Theorem base_dataset_unchanged (loaded : DataFrame) (vs : list View) :
  (exists created,
     run_all vs (initial loaded)
     = (map (expected loaded) vs, initial loaded ++ created))
  /\ nth_error (snd (run_all vs (initial loaded))) data = Some (Plain loaded)
  /\ (forall country,
        snd (monthly_histogram country (initial loaded))
        = [ Plain loaded;
            Plain (select_country loaded country);
            WithMonth (add_year_month (select_country loaded country));
            WithMonth (country_cases loaded country) ])
  /\ (forall country s e,
        snd (range_form country s e (initial loaded))
        = [ Plain loaded;
            Plain (select_country loaded country);
            Plain (avg_period_country_cases loaded country) ]).
Proof.
  assert (Hd : nth data (initial loaded) (Plain []) = Plain loaded) by reflexivity.
  assert (Hne : initial loaded <> []) by discriminate.
  destruct (run_all_spec loaded vs (initial loaded) Hd Hne) as [created E].
  split; [now exists created|].
  split; [now rewrite E|].
  split.
  - intros country. now rewrite (monthly_histogram_run loaded _ country Hd).
  - intros country s e. now rewrite (range_form_run loaded _ country s e Hd).
Qed.

End StoreFacts.

(** * Further properties of the tables *)

(** ** Sorted lists without duplicates are determined by their elements *)

Lemma ascending_sorted_unique {K} `{KeyLaws K} (l1 : list K) : forall l2,
  StronglySorted ascending l1 -> StronglySorted ascending l2 ->
  (forall x, In x l1 <-> In x l2) -> l1 = l2.
Proof.
  induction l1 as [|x t1 IH]; intros [|y t2] S1 S2 Hin.
  - reflexivity.
  - exfalso. apply (proj2 (Hin y)). now left.
  - exfalso. apply (proj1 (Hin x)). now left.
  - inversion S1 as [|? ? S1' F1]; inversion S2 as [|? ? S2' F2]; subst.
    rewrite Forall_forall in F1, F2.
    assert (Hxy : x = y).
    { destruct (proj1 (Hin x) (or_introl eq_refl)) as [E|Hx]; [now symmetry|].
      destruct (proj2 (Hin y) (or_introl eq_refl)) as [E|Hy]; [assumption|].
      destruct (F2 x Hx) as [Lyx _]. destruct (F1 y Hy) as [Lxy _].
      now apply kleb_antisym. }
    subst y. f_equal. apply IH; auto.
    intros z. split; intros Hz.
    + destruct (proj1 (Hin z) (or_intror Hz)) as [E|Hz']; auto.
      subst z. destruct (F1 x Hz) as [_ Hne]. congruence.
    + destruct (proj2 (Hin z) (or_intror Hz)) as [E|Hz']; auto.
      subst z. destruct (F2 x Hz) as [_ Hne]. congruence.
Qed.

Lemma group_keys_permutation {K} `{KeyLaws K} (l l' : list K) :
  Permutation l l' -> group_keys l = group_keys l'.
Proof.
  intros Hp. apply ascending_sorted_unique; try apply group_keys_strict.
  intros x. rewrite !group_keys_In. split; apply Permutation_in; auto.
  now symmetry.
Qed.

Lemma StronglySorted_filter {A} (P : A -> A -> Prop) (f : A -> bool) l :
  StronglySorted P l -> StronglySorted P (filter f l).
Proof.
  induction 1 as [|x l Hs IH Hx]; simpl; [constructor|].
  destruct (f x); auto. constructor; auto.
  rewrite Forall_forall in *. intros y Hy. apply filter_In in Hy. now apply Hx.
Qed.

Lemma drop_duplicates_sorted {A} (eqb : A -> A -> bool) (P : A -> A -> Prop) l :
  StronglySorted P l -> StronglySorted P (drop_duplicates eqb l).
Proof.
  induction 1 as [|x l Hs IH Hx]; simpl; constructor.
  - now apply StronglySorted_filter.
  - rewrite Forall_forall in *. intros y Hy. apply filter_In in Hy.
    destruct Hy as [Hy _]. apply Hx. clear - Hy.
    induction l as [|z l IHl]; simpl in *; auto.
    destruct Hy as [->|Hy]; auto. apply filter_In in Hy. tauto.
Qed.

Lemma sumZ_permutation l l' : Permutation l l' -> sumZ l = sumZ l'.
Proof. induction 1; simpl; lia. Qed.

Lemma filter_permutation {A} (f : A -> bool) l l' :
  Permutation l l' -> Permutation (filter f l) (filter f l').
Proof.
  induction 1 as [|x l l' Hp IH|x y l|l l' l'' H1 IH1 H2 IH2]; simpl; auto.
  - destruct (f x); auto.
  - destruct (f x), (f y); auto. apply perm_swap.
  - now transitivity (filter f l').
Qed.

Lemma group_sum_permutation {A} (f : A -> bool) (w : A -> Z) l l' :
  Permutation l l' -> sumZ (map w (filter f l)) = sumZ (map w (filter f l')).
Proof.
  intros Hp. apply sumZ_permutation, Permutation_map, filter_permutation, Hp.
Qed.

Lemma StronglySorted_app_intro {A} (P : A -> A -> Prop) l1 l2 :
  StronglySorted P l1 -> StronglySorted P l2 ->
  (forall a b, In a l1 -> In b l2 -> P a b) ->
  StronglySorted P (l1 ++ l2).
Proof.
  induction 1 as [|x l1 Hs IH Hx]; simpl; intros S2 H12; auto.
  constructor.
  - apply IH; auto.
  - apply Forall_app. split; auto.
    apply Forall_forall. intros b Hb. apply H12; auto.
Qed.

Lemma flat_map_pointwise_permutation {A B} (f g : A -> list B) l :
  (forall a, In a l -> Permutation (f a) (g a)) ->
  Permutation (flat_map f l) (flat_map g l).
Proof.
  induction l as [|x l IH]; simpl; intros Hfg; auto.
  apply Permutation_app; auto.
Qed.

(** ** The country selectors *)

Lemma country_options_keys data :
  country_options data = group_keys (map countriesAndTerritories data).
Proof.
  unfold country_options.
  apply (ascending_sorted_unique (K := string)).
  - apply (sorted_NoDup_strict (K := string)).
    + apply drop_duplicates_sorted.
      exact (sort_values_sorted (K := string) (fun c => c) _).
    + apply drop_duplicates_NoDup, String.eqb_eq.
  - apply (group_keys_strict (K := string)).
  - intros c. rewrite (drop_duplicates_In String.eqb String.eqb_eq).
    rewrite (group_keys_In (K := string)).
    split; apply Permutation_in; [|symmetry]; apply sort_values_perm.
Qed.

(** X4. The two country selectors offer a name exactly when some row of
    the dataset carries it: every row's country is offered, the options
    are the distinct country names in strictly ascending order, they are
    the country column of [cases_deaths], row for row, and each option
    selects at least one row of [data]. *)
Theorem country_options_listed (data : DataFrame) :
  (forall c, In c (country_options data)
             <-> In c (map countriesAndTerritories data))
  /\ Forall (fun r => In (countriesAndTerritories r) (country_options data)) data
  /\ StronglySorted ascending (country_options data)
  /\ Permutation (country_options data)
                 (drop_duplicates String.eqb (map countriesAndTerritories data))
  /\ country_options data = map cd_country (cases_deaths data)
  /\ country_options data = map cc_country (groupby_country_cases data)
  /\ Forall (fun c => select_country data c <> []) (country_options data).
Proof.
  rewrite country_options_keys.
  split; [intros c; apply (group_keys_In (K := string))|].
  split.
  { apply Forall_forall. intros r Hr.
    apply (group_keys_In (K := string)). now apply in_map. }
  split; [apply (group_keys_strict (K := string))|].
  split; [exact (group_keys_perm (map countriesAndTerritories data))|].
  split; [rewrite cases_deaths_rows, map_map; simpl; now rewrite map_id|].
  split.
  - unfold groupby_country_cases, groupby. rewrite !map_map. simpl.
    now rewrite map_id.
  - apply Forall_forall. intros c Hc.
    apply select_country_nonempty. now apply (group_keys_In (K := string)).
Qed.

Lemma country_options_listed_witness :
  In "B"%string (map countriesAndTerritories Scenario.data)
  /\ In "B"%string (country_options Scenario.data).
Proof.
  assert (H : In "B"%string (map countriesAndTerritories Scenario.data))
    by (simpl; auto).
  split; [exact H|].
  apply (proj2 (proj1 (country_options_listed Scenario.data) "B"%string) H).
Defined.

(** ** Cases and deaths *)

(** X1. [cases_deaths] has one row per distinct country name, in
    strictly ascending name order; each row holds the sums of [cases]
    and of [deaths] over the rows of its country; and the two columns
    add up to the sums of the raw columns. *)
Theorem cases_deaths_table (data : DataFrame) :
  StronglySorted ascending (map cd_country (cases_deaths data))
  /\ Permutation (map cd_country (cases_deaths data))
                 (drop_duplicates String.eqb (map countriesAndTerritories data))
  /\ Forall (fun row =>
               cd_cases row
               = sumZ (map cases (select_country data (cd_country row)))
               /\ cd_deaths row
                  = sumZ (map deaths (select_country data (cd_country row))))
            (cases_deaths data)
  /\ sumZ (map cd_cases (cases_deaths data)) = sumZ (map cases data)
  /\ sumZ (map cd_deaths (cases_deaths data)) = sumZ (map deaths data).
Proof.
  assert (Hk : map cd_country (cases_deaths data)
               = group_keys (map countriesAndTerritories data)).
  { rewrite cases_deaths_rows, map_map. simpl. apply map_id. }
  split; [rewrite Hk; apply (group_keys_strict (K := string))|].
  split; [rewrite Hk; exact (group_keys_perm (map countriesAndTerritories data))|].
  split.
  - rewrite cases_deaths_rows. apply Forall_map, Forall_forall.
    intros c _. simpl. auto.
  - unfold cases_deaths. rewrite !map_map. simpl. split.
    + apply (groupby_sum countriesAndTerritories cases).
    + apply (groupby_sum countriesAndTerritories deaths).
Qed.

(** ** The merged totals table *)

Lemma codes_of_In data c k :
  In k (codes_of data c)
  <-> exists r, In r data /\ countriesAndTerritories r = c
                /\ countryterritoryCode r = k.
Proof.
  unfold codes_of. rewrite (drop_duplicates_In code_eqb code_eqb_eq), in_map_iff.
  split; intros [r Hr]; exists r.
  - destruct Hr as [Hk Hr]. apply select_country_In in Hr. tauto.
  - destruct Hr as (Hr & Hc & Hk). split; auto. now apply select_country_In.
Qed.

(** X3. Every row of the merged totals table pairs a country with a
    code found on one of that country's rows of [data] (the join makes
    up no code and leaves no country unmatched); every (name, code) pair
    of [data] has its row, with the country's total; and the rows come
    in non-decreasing order of country name. *)
Theorem total_cases_by_country_sound (data : DataFrame) :
  Forall (fun t => exists r, In r data
                     /\ countriesAndTerritories r = ct_country t
                     /\ countryterritoryCode r = ct_code t)
         (total_cases_by_country data)
  /\ Forall (fun r =>
               In (mkCountryTotal (countriesAndTerritories r)
                     (sumZ (map cases (select_country data (countriesAndTerritories r))))
                     (countryterritoryCode r))
                  (total_cases_by_country data))
            data
  /\ StronglySorted (fun a b => String.leb (ct_country a) (ct_country b) = true)
                    (total_cases_by_country data).
Proof.
  rewrite total_cases_by_country_rows. split; [|split].
  - apply Forall_forall. intros t Ht. apply in_flat_map in Ht.
    destruct Ht as [c [_ Ht]]. apply in_map_iff in Ht. destruct Ht as [k [<- Hk]].
    simpl. now apply codes_of_In.
  - apply Forall_forall. intros r Hr. apply in_flat_map.
    exists (countriesAndTerritories r). split.
    + apply (group_keys_In (K := string)). now apply in_map.
    + apply in_map. apply codes_of_In. now exists r.
  - pose proof (group_keys_strict (K := string) (map countriesAndTerritories data)) as Hs.
    induction Hs as [|c ks Hs IH Hc]; simpl; [constructor|].
    apply StronglySorted_app_intro; auto.
    + generalize (codes_of data c) as l. induction l as [|k l IHl]; simpl; constructor; auto.
      apply Forall_map, Forall_forall. intros k' _. simpl.
      exact (kleb_refl (K := string) c).
    + intros a b Ha Hb. apply in_map_iff in Ha. destruct Ha as [k [<- _]].
      apply in_flat_map in Hb. destruct Hb as [c' [Hc' Hb]].
      apply in_map_iff in Hb. destruct Hb as [k' [<- _]]. simpl.
      rewrite Forall_forall in Hc. now destruct (Hc c' Hc').
Qed.

(** X2. The [cases] column of the merged totals table adds up to the
    sum, over the countries, of the country's total times the number of
    distinct code values found on the country's rows. *)
Theorem total_cases_by_country_weighted_sum (data : DataFrame) :
  sumZ (map ct_cases (total_cases_by_country data))
  = sumZ (map (fun c => sumZ (map cases (select_country data c))
                        * Z.of_nat (List.length (codes_of data c)))
              (country_options data)).
Proof.
  rewrite country_options_keys, total_cases_by_country_rows, sumZ_flat_map.
  f_equal. apply map_ext. intros c. rewrite map_map. simpl.
  generalize (sumZ (map cases (select_country data c))) as t.
  intros t. induction (codes_of data c) as [|k l IH]; cbn [map sumZ List.length].
  - lia.
  - rewrite IH. lia.
Qed.

(** ** The order of the rows of the file *)

Lemma codes_of_permutation data data' c :
  Permutation data data' -> Permutation (codes_of data c) (codes_of data' c).
Proof.
  intros Hp. apply NoDup_Permutation.
  - apply drop_duplicates_NoDup, code_eqb_eq.
  - apply drop_duplicates_NoDup, code_eqb_eq.
  - intros k. rewrite !codes_of_In. split; intros (r & Hr & H); exists r.
    + split; auto. now apply (Permutation_in r Hp).
    + split; auto. now apply (Permutation_in r (Permutation_sym Hp)).
Qed.

Lemma country_keys_permutation data data' :
  Permutation data data' ->
  group_keys (map countriesAndTerritories data)
  = group_keys (map countriesAndTerritories data').
Proof. intros Hp. now apply (group_keys_permutation (K := string)), Permutation_map. Qed.

(** X5. Reordering the rows of the dataset changes none of the grouped
    tables (per-country cases, daily cases, cases and deaths) nor the
    selector options; the merged totals table keeps the same rows, up
    to the order of the rows of a country that has several codes. *)
Theorem tables_ignore_row_order (data data' : DataFrame) :
  Permutation data data' ->
  groupby_country_cases data = groupby_country_cases data'
  /\ daily_cases data = daily_cases data'
  /\ cases_deaths data = cases_deaths data'
  /\ country_options data = country_options data'
  /\ Permutation (total_cases_by_country data) (total_cases_by_country data').
Proof.
  intros Hp. pose proof (country_keys_permutation data data' Hp) as Hk.
  split; [|split; [|split; [|split]]].
  - unfold groupby_country_cases, groupby. rewrite !map_map, Hk.
    apply map_ext. intros c. simpl. f_equal. now apply group_sum_permutation.
  - rewrite !daily_cases_rows.
    rewrite (group_keys_permutation (K := Timestamp) _ _ (Permutation_map dateRep Hp)).
    apply map_ext. intros d. f_equal. now apply group_sum_permutation.
  - rewrite !cases_deaths_rows, Hk. apply map_ext. intros c.
    unfold select_country. f_equal; now apply group_sum_permutation.
  - now rewrite !country_options_keys.
  - rewrite !total_cases_by_country_rows, Hk.
    apply flat_map_pointwise_permutation. intros c _.
    unfold select_country at 2.
    rewrite <- (group_sum_permutation _ cases data data' Hp). fold (select_country data c).
    apply Permutation_map. now apply codes_of_permutation.
Qed.

Lemma tables_ignore_row_order_witness :
  Permutation Scenario.data (rev Scenario.data)
  /\ daily_cases Scenario.data = daily_cases (rev Scenario.data)
  /\ cases_deaths Scenario.data = cases_deaths (rev Scenario.data).
Proof.
  assert (Hp : Permutation Scenario.data (rev Scenario.data))
    by apply Permutation_rev.
  split; [exact Hp|].
  destruct (tables_ignore_row_order _ _ Hp) as (_ & Hd & Hc & _).
  split; [exact Hd | exact Hc].
Defined.

(** ** A country that is not in the dataset *)

(** X14. For a name that no row of the dataset carries, the monthly
    view has no rows, the frame that the range form selects has no
    rows, no table has a row for it, and the selectors do not offer
    it. *)
Theorem absent_country_has_no_rows (data : DataFrame) (country : string) :
  ~ In country (map countriesAndTerritories data) ->
  country_cases data country = []
  /\ avg_period_country_cases data country = []
  /\ rows_of_country data country = []
  /\ filter (fun d => String.eqb (cd_country d) country) (cases_deaths data) = []
  /\ ~ In country (country_options data).
Proof.
  intros Hc. pose proof (select_country_absent _ _ Hc) as Hsel.
  split; [unfold country_cases; now rewrite Hsel|].
  split; [unfold avg_period_country_cases; now rewrite Hsel|].
  split; [|split].
  - unfold rows_of_country. rewrite total_cases_by_country_of.
    unfold codes_of. now rewrite Hsel.
  - apply filter_none. intros d Hd. rewrite cases_deaths_rows in Hd.
    apply in_map_iff in Hd. destruct Hd as [c [<- Hin]]. simpl.
    apply String.eqb_neq. intros ->. apply Hc.
    now apply (group_keys_In (K := string)).
  - rewrite country_options_keys. intros Hin. apply Hc.
    now apply (group_keys_In (K := string)).
Qed.

Lemma absent_country_has_no_rows_witness :
  ~ In "C"%string (map countriesAndTerritories Scenario.data)
  /\ country_cases Scenario.data "C" = []
  /\ rows_of_country Scenario.data "C" = [].
Proof.
  assert (H : ~ In "C"%string (map countriesAndTerritories Scenario.data)).
  { simpl. intros [E|[E|[E|[]]]]; discriminate. }
  destruct (absent_country_has_no_rows Scenario.data "C" H) as (H1 & _ & H3 & _).
  split; [exact H|]. split; [exact H1 | exact H3].
Defined.

(** ** The ranking, once more *)

(** X15. Every ranked row is a row of the merged totals table; with at
    most ten (name, code) pairs the ranking keeps all rows; the ranking
    is empty only for an empty table, and otherwise its first row has
    the largest total of the whole table. *)
Theorem top_countries_head_is_max (data : DataFrame) :
  incl (top_countries data) (total_cases_by_country data)
  /\ (List.length (iso_mapping data) <= 10 ->
      Permutation (top_countries data) (total_cases_by_country data))%nat
  /\ match top_countries data with
     | [] => total_cases_by_country data = []
     | first :: _ =>
         Forall (fun t => ct_cases t <= ct_cases first) (total_cases_by_country data)
     end.
Proof.
  pose proof (isort_perm (fun a b => Z.leb (ct_cases b) (ct_cases a))
                (total_cases_by_country data)) as Hp.
  pose proof (sort_values_desc_sorted ct_cases (total_cases_by_country data)) as Hs.
  unfold top_countries, sort_values_desc in *.
  set (ranked := isort _ _) in *.
  split; [|split].
  - intros t Ht. apply firstn_In in Ht. eapply Permutation_in; eauto.
  - intros Hlen. rewrite firstn_all2; auto.
    rewrite (Permutation_length Hp), total_cases_by_country_length. exact Hlen.
  - destruct ranked as [|first rest] eqn:E; simpl.
    + now apply Permutation_nil.
    + eapply Permutation_Forall; [exact Hp|].
      inversion Hs; subst. constructor; [lia|assumption].
Qed.

Lemma top_countries_head_is_max_witness :
  (List.length (iso_mapping Scenario.data) <= 10)%nat
  /\ Permutation (top_countries Scenario.data) (total_cases_by_country Scenario.data).
Proof.
  assert (H : (List.length (iso_mapping Scenario.data) <= 10)%nat)
    by (vm_compute; lia).
  split; [exact H|].
  apply (proj1 (proj2 (top_countries_head_is_max Scenario.data)) H).
Defined.

(** ** The monthly view against the totals *)

(** X11. The rows of the monthly view are the rows of the selected
    country, as many as in [data], and their [cases] add up to the total
    that the totals table and [cases_deaths] hold for that country. *)
Theorem country_cases_adds_up (data : DataFrame) (country : string) :
  let shown := sumZ (map (fun m => cases (mr_row m)) (country_cases data country)) in
  Permutation (map mr_row (country_cases data country)) (select_country data country)
  /\ List.length (country_cases data country)
     = List.length (select_country data country)
  /\ shown = sumZ (map cases (select_country data country))
  /\ Forall (fun t => ct_cases t = shown) (rows_of_country data country)
  /\ Forall (fun d => cd_cases d = shown)
            (filter (fun d => String.eqb (cd_country d) country) (cases_deaths data)).
Proof.
  intros shown.
  assert (Hp : Permutation (map mr_row (country_cases data country))
                           (select_country data country)).
  { unfold country_cases.
    rewrite (Permutation_map mr_row (sort_values_perm mr_date _)).
    unfold add_year_month. rewrite map_map. simpl. now rewrite map_id. }
  assert (Hs : shown = sumZ (map cases (select_country data country))).
  { unfold shown. rewrite <- (map_map mr_row cases).
    apply sumZ_permutation, Permutation_map, Hp. }
  split; [exact Hp|]. split; [|split; [exact Hs|split]].
  - rewrite <- (Permutation_length Hp). now rewrite length_map.
  - unfold rows_of_country. rewrite total_cases_by_country_of, Hs.
    apply Forall_map, Forall_forall. intros k _. reflexivity.
  - rewrite Hs. apply Forall_forall. intros d Hd. apply filter_In in Hd.
    destruct Hd as [Hd Hc]. apply String.eqb_eq in Hc.
    rewrite cases_deaths_rows in Hd. apply in_map_iff in Hd.
    destruct Hd as [c [<- _]]. simpl in *. now subst.
Qed.

(** ** The year-month labels *)

Lemma N_of_digit n : N_of_ascii (digit n) = N.of_nat (48 + Nat.modulo n 10).
Proof.
  unfold digit, ascii_of_nat. apply N_ascii_embedding.
  pose proof (Nat.mod_upper_bound n 10). lia.
Qed.

Lemma digit_compare a b :
  Ascii.compare (digit a) (digit b) = Nat.compare (Nat.modulo a 10) (Nat.modulo b 10).
Proof.
  unfold Ascii.compare. rewrite !N_of_digit.
  destruct (Nat.compare_spec (Nat.modulo a 10) (Nat.modulo b 10)) as [E|E|E].
  - rewrite E. apply N.compare_refl.
  - apply N.compare_lt_iff. lia.
  - apply N.compare_gt_iff. lia.
Qed.

Lemma digit_inj a b : digit a = digit b -> Nat.modulo a 10 = Nat.modulo b 10.
Proof.
  intros E. apply Nat.compare_eq. rewrite <- digit_compare, E.
  now apply ascii_compare_eq.
Qed.

Lemma four_digits y :
  (y < 100 * 100 ->
   y = 1000 * ((y / 1000) mod 10) + 100 * ((y / 100) mod 10)
       + 10 * ((y / 10) mod 10) + y mod 10)%nat.
Proof.
  intros Hy.
  replace (y / 1000)%nat with (y / 10 / 10 / 10)%nat
    by (now rewrite !Nat.Div0.div_div).
  replace (y / 100)%nat with (y / 10 / 10)%nat
    by (now rewrite !Nat.Div0.div_div).
  pose proof (Nat.div_mod_eq y 10) as E1.
  pose proof (Nat.div_mod_eq (y / 10) 10) as E2.
  pose proof (Nat.div_mod_eq (y / 10 / 10) 10) as E3.
  assert (H1 : (y / 10 < 1000)%nat) by (apply Nat.Div0.div_lt_upper_bound; lia).
  assert (H2 : (y / 10 / 10 < 100)%nat) by (apply Nat.Div0.div_lt_upper_bound; lia).
  assert (H3 : (y / 10 / 10 / 10 < 10)%nat) by (apply Nat.Div0.div_lt_upper_bound; lia).
  rewrite (Nat.mod_small _ _ H3). lia.
Qed.

Lemma two_digits m : (m < 100 -> m = 10 * ((m / 10) mod 10) + m mod 10)%nat.
Proof.
  intros Hm.
  pose proof (Nat.div_mod_eq m 10) as E1.
  pose proof (Nat.mod_small (m / 10) 10) as E2.
  assert (m / 10 < 10)%nat by (apply Nat.Div0.div_lt_upper_bound; lia).
  lia.
Qed.

Lemma calendar_date_bounds d :
  calendar_date d = true -> (year d < 100 * 100 /\ 1 <= month d <= 12)%nat.
Proof.
  unfold calendar_date. rewrite !andb_true_iff, Nat.ltb_lt, !Nat.leb_le. tauto.
Qed.

Ltac name_digits :=
  repeat match goal with
  | |- context [Nat.modulo ?x 10] =>
      let H := fresh "B" in
      pose proof (Nat.mod_upper_bound x 10 ltac:(discriminate)) as H;
      generalize dependent (Nat.modulo x 10); intros
  end.

Lemma year_month_str_monotone (a b : Timestamp) :
  calendar_date a = true -> calendar_date b = true ->
  date_leb a b = true ->
  String.leb (year_month_str a) (year_month_str b) = true.
Proof.
  intros Ha Hb Hle.
  apply calendar_date_bounds in Ha, Hb. apply date_leb_iff in Hle.
  pose proof (four_digits (year a) (proj1 Ha)) as Da.
  pose proof (four_digits (year b) (proj1 Hb)) as Db.
  pose proof (two_digits (month a) ltac:(lia)) as Ma.
  pose proof (two_digits (month b) ltac:(lia)) as Mb.
  unfold String.leb, year_month_str. cbn [String.compare].
  rewrite !digit_compare.
  replace (Ascii.compare "-" "-") with Eq by reflexivity.
  name_digits.
  repeat match goal with
  | |- context [Nat.compare ?x ?y] => destruct (Nat.compare_spec x y)
  end; try reflexivity; exfalso; lia.
Qed.

Lemma StronglySorted_impl_in {A} (P Q : A -> A -> Prop) l :
  (forall a b, In a l -> In b l -> P a b -> Q a b) ->
  StronglySorted P l -> StronglySorted Q l.
Proof.
  intros HPQ Hs. induction Hs as [|x l Hs IH Hx]; constructor.
  - apply IH. intros a b Ha Hb. apply HPQ; now right.
  - rewrite Forall_forall in *. intros y Hy.
    apply HPQ; [now left|now right|auto].
Qed.

Lemma String_inj c1 s1 c2 s2 : String c1 s1 = String c2 s2 -> c1 = c2 /\ s1 = s2.
Proof. intros E. now inversion E. Qed.

(** X12. On calendar dates with a four-digit year, two dates get the
    same [YYYY-MM] label exactly when they are in the same month of the
    same year: the label neither merges two months nor splits one. *)
Theorem year_month_str_faithful (a b : Timestamp) :
  calendar_date a = true -> calendar_date b = true ->
  (year_month_str a = year_month_str b <-> year a = year b /\ month a = month b).
Proof.
  intros Ha Hb. split.
  - intros E. unfold year_month_str in E.
    apply String_inj in E. destruct E as [E1 E].
    apply String_inj in E. destruct E as [E2 E].
    apply String_inj in E. destruct E as [E3 E].
    apply String_inj in E. destruct E as [E4 E].
    apply String_inj in E. destruct E as [_ E].
    apply String_inj in E. destruct E as [E5 E].
    apply String_inj in E. destruct E as [E6 _].
    apply digit_inj in E1, E2, E3, E4, E5, E6.
    apply calendar_date_bounds in Ha, Hb.
    pose proof (four_digits (year a) (proj1 Ha)) as Da.
    pose proof (four_digits (year b) (proj1 Hb)) as Db.
    pose proof (two_digits (month a) ltac:(lia)) as Ma.
    pose proof (two_digits (month b) ltac:(lia)) as Mb.
    revert E1 E2 E3 E4 E5 E6 Da Db Ma Mb. name_digits. lia.
  - intros [Ey Em]. unfold year_month_str. now rewrite Ey, Em.
Qed.

Lemma year_month_str_faithful_witness :
  calendar_date (mkDate 2020 1 15) = true /\ calendar_date (mkDate 2020 1 3) = true
  /\ year_month_str (mkDate 2020 1 15) = year_month_str (mkDate 2020 1 3).
Proof.
  split; [reflexivity|]. split; [reflexivity|].
  apply (year_month_str_faithful (mkDate 2020 1 15) (mkDate 2020 1 3));
    [reflexivity | reflexivity | split; reflexivity].
Defined.

(** X13. When the dates of the dataset are calendar dates with a
    four-digit year, the labels of the rows of the monthly view never
    decrease, as strings, from one row to any later one, also across a
    change of year. *)
Theorem country_cases_labels_ascend (data : DataFrame) (country : string) :
  Forall (fun r => calendar_date (dateRep r) = true) data ->
  StronglySorted (fun m1 m2 => String.leb (year_month m1) (year_month m2) = true)
                 (country_cases data country).
Proof.
  intros Hcal.
  assert (Hrow : forall m, In m (country_cases data country) ->
                   year_month m = year_month_str (mr_date m)
                   /\ calendar_date (mr_date m) = true).
  { intros m Hm. unfold country_cases in Hm.
    apply (Permutation_in m (sort_values_perm mr_date _)) in Hm.
    unfold add_year_month in Hm. apply in_map_iff in Hm.
    destruct Hm as [r [<- Hr]]. apply select_country_In in Hr.
    rewrite Forall_forall in Hcal. split; [reflexivity|].
    apply Hcal. tauto. }
  eapply StronglySorted_impl_in;
    [|exact (sort_values_sorted (K := Timestamp) mr_date
               (add_year_month (select_country data country)))].
  intros a b Ha Hb Hab. fold (country_cases data country) in Ha, Hb.
  destruct (Hrow a Ha) as [-> Ca]. destruct (Hrow b Hb) as [-> Cb].
  now apply year_month_str_monotone.
Qed.

Lemma country_cases_labels_ascend_witness :
  Forall (fun r => calendar_date (dateRep r) = true) SameMonth.data
  /\ StronglySorted (fun m1 m2 => String.leb (year_month m1) (year_month m2) = true)
                    (country_cases SameMonth.data "A").
Proof.
  assert (H : Forall (fun r => calendar_date (dateRep r) = true) SameMonth.data)
    by (repeat constructor).
  split; [exact H|].
  exact (country_cases_labels_ascend SameMonth.data "A" H).
Defined.

(** ** When the join repeats a country *)

Lemma codes_consistentb_intro data :
  (forall r1 r2, In r1 data -> In r2 data ->
     countriesAndTerritories r1 = countriesAndTerritories r2 ->
     countryterritoryCode r1 = countryterritoryCode r2) ->
  codes_consistentb data = true.
Proof.
  intros Hc. unfold codes_consistentb.
  apply forallb_forall. intros r1 H1. apply forallb_forall. intros r2 H2.
  destruct (String.eqb (countriesAndTerritories r1) (countriesAndTerritories r2)) eqn:E;
    simpl; auto.
  apply String.eqb_eq in E. apply code_eqb_eq. now apply Hc.
Qed.

Lemma sum_of_ones_at_least {A} (f : A -> nat) (l : list A) :
  Forall (fun a => 1 <= f a)%nat l ->
  (List.length l <= list_sum (map f l))%nat
  /\ (list_sum (map f l) = List.length l -> Forall (fun a => f a = 1%nat) l).
Proof.
  induction 1 as [|a l Ha Hl [IH1 IH2]]; simpl.
  - split; auto.
  - split; [lia|]. intros E. constructor; [lia|]. apply IH2. lia.
Qed.

Lemma length_flat_map {A B} (f : A -> list B) l :
  List.length (flat_map f l) = list_sum (map (fun a => List.length (f a)) l).
Proof.
  induction l as [|x l IH]; simpl; auto. now rewrite length_app, IH.
Qed.

(** X16. The merged totals table never has fewer rows than there are
    distinct country names, and it has exactly one row per name if and
    only if every country name carries a single code value on all its
    rows. *)
Theorem one_row_per_country_iff_consistent (data : DataFrame) :
  (distinct_countries data <= List.length (total_cases_by_country data))%nat
  /\ (List.length (total_cases_by_country data) = distinct_countries data
      <-> codes_consistentb data = true).
Proof.
  pose proof (total_cases_by_country_rows data) as Hrows.
  set (keys := group_keys (map countriesAndTerritories data)) in *.
  assert (Hlen : List.length (total_cases_by_country data)
                 = list_sum (map (fun c => List.length (codes_of data c)) keys)).
  { rewrite Hrows, length_flat_map. f_equal. apply map_ext. intros c.
    now rewrite length_map. }
  assert (Hpos : Forall (fun c => 1 <= List.length (codes_of data c))%nat keys).
  { apply Forall_forall. intros c Hc.
    apply (proj1 (group_keys_In (K := string) c _)) in Hc.
    pose proof (codes_of_nonempty _ _ Hc).
    destruct (codes_of data c); [congruence|simpl; lia]. }
  destruct (sum_of_ones_at_least _ keys Hpos) as [Hle Hone].
  rewrite <- distinct_countries_keys. fold keys. rewrite Hlen.
  split; [exact Hle|]. split.
  - intros E. specialize (Hone E). rewrite Forall_forall in Hone.
    apply codes_consistentb_intro. intros r1 r2 H1 H2 En.
    assert (Hk : In (countriesAndTerritories r1) keys).
    { apply (group_keys_In (K := string)). now apply in_map. }
    specialize (Hone _ Hk).
    assert (I1 : In (countryterritoryCode r1) (codes_of data (countriesAndTerritories r1)))
      by (apply codes_of_In; now exists r1).
    assert (I2 : In (countryterritoryCode r2) (codes_of data (countriesAndTerritories r1)))
      by (apply codes_of_In; exists r2; auto).
    destruct (codes_of data (countriesAndTerritories r1)) as [|k [|k' l]];
      try discriminate.
    destruct I1 as [<-|[]]. destruct I2 as [<-|[]]. reflexivity.
  - intros Hc. rewrite <- Hlen. unfold keys.
    rewrite distinct_countries_keys, total_cases_by_country_length.
    now apply iso_mapping_length_consistent.
Qed.

Lemma one_row_per_country_iff_consistent_witness :
  codes_consistentb MissingCode.data = true
  /\ List.length (total_cases_by_country MissingCode.data)
     = distinct_countries MissingCode.data.
Proof.
  split; [reflexivity|].
  apply (proj2 (proj2 (one_row_per_country_iff_consistent MissingCode.data))).
  reflexivity.
Defined.
